(** * A shallow embedding of the weather client

    The development follows the three source modules:
    - [models.py]         : the [WeatherData] record,
    - [api_service.py]    : [WeatherAPIService] and its two fetch operations,
    - [weather_client.py] : [WeatherClient], its display operations and the
                            interactive loop.

    Python values that come out of [response.json()] are dynamically typed;
    they are embedded as the inductive type [pyval].  Exceptions are values of
    type [exn]; code that can raise returns a [result].  Code that prints,
    sends a request or allocates an object runs in the state-and-exception
    monad [M] over the program state [state].  The network is an oracle
    [net] that answers every request given the requests sent before it. *)

From Stdlib Require Import ZArith List String Ascii Bool Lia.
From Stdlib Require Import DecimalString.
From Stdlib Require Import Floats.PrimFloat Floats.SpecFloat Floats.FloatOps.
Import ListNotations.

Set Warnings "-inexact-float,-register-all".

Local Open Scope string_scope.
Local Open Scope list_scope.
Local Open Scope Z_scope.

(** String concatenation; [++] stays the append of lists. *)
Infix "+++" := String.append (right associativity, at level 60).

(** ** Strings

    A Python [str] is a sequence of code points.  A [string] here is a
    sequence of code points below 256, one per [ascii]; the [str] methods
    the program calls are modelled on that range. *)

Module Str.

Definition chr (n : nat) : string := String (ascii_of_nat n) EmptyString.

(** The degree sign of ["°C"], code point 176. *)
Definition degree : string := chr 176.
Definition newline : string := chr 10.
Definition apostrophe : string := chr 39.

Definition of_Z (z : Z) : string := NilZero.string_of_int (Z.to_int z).

(** [str.isspace] on one code point below 256. *)
Definition isspace (c : ascii) : bool :=
  let n := nat_of_ascii c in
  ((9 <=? n) && (n <=? 13) || (28 <=? n) && (n <=? 32)
   || (n =? 133) || (n =? 160))%nat.

Fixpoint lstrip (s : string) : string :=
  match s with
  | EmptyString => EmptyString
  | String c s' => if isspace c then lstrip s' else s
  end.

(** Drops trailing white space: a character stays when it is not white
    space or when something after it stays. *)
Fixpoint rstrip (s : string) : string :=
  match s with
  | EmptyString => EmptyString
  | String c s' =>
      match rstrip s' with
      | EmptyString => if isspace c then EmptyString else String c EmptyString
      | r => String c r
      end
  end.

(** [s.strip()] *)
Definition strip (s : string) : string := rstrip (lstrip s).

(** [str.lower] on one code point below 256: the letters A-Z and the
    Latin-1 capitals 192-222 (but not the multiplication sign 215). *)
Definition lower_char (c : ascii) : ascii :=
  let n := nat_of_ascii c in
  if ((65 <=? n) && (n <=? 90)
      || (192 <=? n) && (n <=? 222) && negb (n =? 215))%nat
  then ascii_of_nat (n + 32) else c.

(** [s.lower()] *)
Fixpoint lower (s : string) : string :=
  match s with
  | EmptyString => EmptyString
  | String c s' => String (lower_char c) (lower s')
  end.

(** [s.split(sep)] for a one-character separator: never empty. *)
Fixpoint split (sep : ascii) (s : string) : list string :=
  match s with
  | EmptyString => [EmptyString]
  | String c s' =>
      if Ascii.eqb c sep then EmptyString :: split sep s'
      else match split sep s' with
           | [] => [String c EmptyString]
           | w :: ws => String c w :: ws
           end
  end.

Fixpoint chars (s : string) : list string :=
  match s with
  | EmptyString => []
  | String c s' => String c EmptyString :: chars s'
  end.

(** [sep.join(l)] *)
Fixpoint join (sep : string) (l : list string) : string :=
  match l with
  | [] => EmptyString
  | [x] => x
  | x :: l' => x +++ sep +++ join sep l'
  end.

(** ["-" * n] *)
Fixpoint repeat (c : ascii) (n : nat) : string :=
  match n with
  | O => EmptyString
  | S n' => String c (repeat c n')
  end.

(** [s.startswith(p)] *)
Fixpoint startswith (s p : string) {struct p} : bool :=
  match p with
  | EmptyString => true
  | String c p' =>
      match s with
      | EmptyString => false
      | String d s' => Ascii.eqb c d && startswith s' p'
      end
  end.

(** [sub in s] *)
Definition contains (sub s : string) : Prop :=
  exists pre post, s = pre +++ sub +++ post.

(** Zero-padded decimal of a natural number, at least [w] digits. *)
Definition pad (w : nat) (z : Z) : string :=
  let d := of_Z z in
  repeat "0"%char (w - String.length d) +++ d.

End Str.

(** ** Exceptions and results *)

(** The exception classes the program can meet.  [KeyboardInterrupt] and
    [SystemExit] derive from [BaseException] only; all others derive from
    [Exception].  [HTTPError] derives from [RequestException];
    [OtherRequestException] stands for every other class of
    [requests.exceptions.RequestException] (connection errors, timeouts,
    undecodable bodies). *)
Inductive exn_class : Type :=
| KeyboardInterrupt
| SystemExit
| HTTPError
| OtherRequestException
| WeatherAPIError
| KeyError
| IndexError
| TypeError
| ValueError
| OverflowError
| OSError
| UnboundLocalError
| EOFError
| OtherException.

(** An exception: its class and its [str(e)]. *)
Record exn : Type := mk_exn { exn_cls : exn_class; exn_str : string }.

Definition exn_class_eqb (a b : exn_class) : bool :=
  match a, b with
  | KeyboardInterrupt, KeyboardInterrupt | SystemExit, SystemExit
  | HTTPError, HTTPError | OtherRequestException, OtherRequestException
  | WeatherAPIError, WeatherAPIError | KeyError, KeyError
  | IndexError, IndexError | TypeError, TypeError | ValueError, ValueError
  | OverflowError, OverflowError | OSError, OSError
  | UnboundLocalError, UnboundLocalError | EOFError, EOFError
  | OtherException, OtherException => true
  | _, _ => false
  end.

(** [isinstance(e, requests.exceptions.HTTPError)] *)
Definition is_HTTPError (e : exn) : bool := exn_class_eqb (exn_cls e) HTTPError.

(** [isinstance(e, requests.exceptions.RequestException)] *)
Definition is_RequestException (e : exn) : bool :=
  exn_class_eqb (exn_cls e) HTTPError
  || exn_class_eqb (exn_cls e) OtherRequestException.

(** [isinstance(e, WeatherAPIError)] *)
Definition is_WeatherAPIError (e : exn) : bool :=
  exn_class_eqb (exn_cls e) WeatherAPIError.

(** [isinstance(e, KeyboardInterrupt)] *)
Definition is_KeyboardInterrupt (e : exn) : bool :=
  exn_class_eqb (exn_cls e) KeyboardInterrupt.

(** [isinstance(e, Exception)] *)
Definition is_Exception (e : exn) : bool :=
  negb (exn_class_eqb (exn_cls e) KeyboardInterrupt
        || exn_class_eqb (exn_cls e) SystemExit).

Inductive result (A : Type) : Type :=
| Ok (a : A)
| Raise (e : exn).
Arguments Ok {A} a.
Arguments Raise {A} e.

Definition rbind {A B : Type} (r : result A) (k : A -> result B) : result B :=
  match r with
  | Ok a => k a
  | Raise e => Raise e
  end.

Declare Scope result_scope.
Delimit Scope result_scope with result.
Notation "'let?' x ':=' r 'in' k" := (rbind r (fun x => k))
  (at level 10, x name, r at level 100, k at level 200) : result_scope.

(** ** Python values *)

(** What [response.json()] can return, and what a field of a record can
    hold.  A [dict] keeps its items in order; a key is looked up from the
    front. *)
Inductive pyval : Type :=
| PNone
| PBool (b : bool)
| PInt (z : Z)
| PFloat (f : float)
| PStr (s : string)
| PList (l : list pyval)
| PDict (d : list (string * pyval)).

(** The subscripts the program uses: a string key, or an integer index. *)
Inductive subscript : Type :=
| Key (s : string)
| Idx (i : Z).

Module Py.

Local Open Scope result_scope.

Definition type_name (v : pyval) : string :=
  match v with
  | PNone => "NoneType"
  | PBool _ => "bool"
  | PInt _ => "int"
  | PFloat _ => "float"
  | PStr _ => "str"
  | PList _ => "list"
  | PDict _ => "dict"
  end.

Definition quoted (s : string) : string :=
  Str.apostrophe +++ s +++ Str.apostrophe.

(** *** [repr] of a string *)

Definition hex_digit (n : nat) : string :=
  match n with
  | 0 => "0" | 1 => "1" | 2 => "2" | 3 => "3" | 4 => "4" | 5 => "5"
  | 6 => "6" | 7 => "7" | 8 => "8" | 9 => "9" | 10 => "a" | 11 => "b"
  | 12 => "c" | 13 => "d" | 14 => "e" | _ => "f"
  end%nat.

(** One character of [repr(s)] when the surrounding quote is [q]. *)
Definition repr_char (q : ascii) (c : ascii) : string :=
  let n := nat_of_ascii c in
  if Ascii.eqb c q || Ascii.eqb c "\"%char then "\" +++ String c EmptyString
  else if (n =? 9)%nat then "\t"
  else if (n =? 10)%nat then "\n"
  else if (n =? 13)%nat then "\r"
  else if ((n <? 32) || (126 <? n) && (n <? 161) || (n =? 173))%nat
  then "\x" +++ hex_digit (n / 16) +++ hex_digit (n mod 16)
  else String c EmptyString.

Fixpoint has_char (c : ascii) (s : string) : bool :=
  match s with
  | EmptyString => false
  | String c' s' => Ascii.eqb c c' || has_char c s'
  end.

Fixpoint repr_chars (q : ascii) (s : string) : string :=
  match s with
  | EmptyString => EmptyString
  | String c s' => repr_char q c +++ repr_chars q s'
  end.

Definition double_quote : ascii := ascii_of_nat 34.
Definition single_quote : ascii := ascii_of_nat 39.

(** [repr(s)]: single quotes, unless [s] has a single quote and no
    double quote. *)
Definition repr_str (s : string) : string :=
  let q := if has_char single_quote s && negb (has_char double_quote s)
           then double_quote else single_quote in
  String q EmptyString +++ repr_chars q s +++ String q EmptyString.


(** *** Numbers

    A Python [float] is an IEEE 754 binary64 number, here a primitive
    [float]; its exact value is read off [Prim2SF].  The functions below
    compute correctly rounded results with integer arithmetic. *)

(** The integer nearest to [p / q] for [0 < q], ties to even. *)
Definition round_half_even (p q : Z) : Z :=
  let d := p / q in
  match (2 * (p mod q) ?= q) with
  | Lt => d
  | Gt => d + 1
  | Eq => if Z.even d then d else d + 1
  end.

Definition signed_zero (s : bool) : float :=
  if s then neg_zero else zero.

(** The float nearest to [p / q] for [0 <= p] and [0 < q], with sign
    [s]; infinite when out of range.  The quotient is taken with enough
    bits, and a last bit that tells whether it was exact. *)
Definition nearest_float (s : bool) (p q : Z) : float :=
  if p =? 0 then signed_zero s
  else
    let k := 57 + Z.log2 q in
    let n := p * 2 ^ k in
    let m := 2 * (n / q) + (if n mod q =? 0 then 0 else 1) in
    SF2Prim (binary_normalize prec emax (if s then - m else m) (- k - 1) s).

(** [float(z)] for an [int]: correctly rounded, or [OverflowError]. *)
Definition float_of_int (z : Z) : result float :=
  let f := nearest_float (z <? 0) (Z.abs z) 1 in
  if is_infinity f
  then Raise (mk_exn OverflowError "int too large to convert to float")
  else Ok f.

(** The expression [v - c] for a float [c]. *)
Definition sub_float (v : pyval) (c : float) : result float :=
  match v with
  | PFloat f => Ok (f - c)%float
  | PInt z => let? f := float_of_int z in Ok (f - c)%float
  | PBool b => let? f := float_of_int (if b then 1 else 0) in Ok (f - c)%float
  | _ => Raise (mk_exn TypeError
                  ("unsupported operand type(s) for -: " +++ quoted (type_name v)
                   +++ " and 'float'"))
  end.

(** [round(x, 1)] for a float [x]: the exact value of [x] is rounded to
    one decimal place, ties to even, and the float nearest to that
    decimal is returned; a NaN, an infinity or a zero is returned as it
    is. *)
Definition round1 (x : float) : float :=
  match Prim2SF x with
  | S754_finite s m e =>
      let n := if 0 <=? e then 10 * Z.pos m * 2 ^ e
               else round_half_even (10 * Z.pos m) (2 ^ (- e)) in
      nearest_float s n 10
  | _ => x
  end.


(** *** [repr] of a float

    [repr(x)] shows the shortest decimal that reads back as [x], and
    among those the one nearest to [x]. *)

(** [c * 10^k] against [a / b], for [0 < b]. *)
Definition cmp_dec (c k a b : Z) : comparison :=
  if 0 <=? k then (c * 10 ^ k * b ?= a) else (c * b ?= a * 10 ^ (- k)).

(** The least [d] with [a / b < 10^d], searched from the estimate [d]. *)
Fixpoint decimal_point (fuel : nat) (a b d : Z) : Z :=
  match fuel with
  | O => d
  | S fuel' =>
      match cmp_dec 1 d a b with
      | Gt =>
          match cmp_dec 1 (d - 1) a b with
          | Gt => decimal_point fuel' a b (d - 1)
          | _ => d
          end
      | _ => decimal_point fuel' a b (d + 1)
      end
  end.

(** The digits [c], as a number, and the exponent [k] of the shortest
    decimal [c * 10^k] that rounds to the float [m * 2^e]; [n] counts the
    digits tried so far. *)
Fixpoint shortest_from (fuel : nat) (n : Z) (m : positive) (e : Z) (dp : Z)
  : Z * Z :=
  let u := if 0 <=? e then 2 ^ e else 1 in
  let den := 4 * (if 0 <=? e then 1 else 2 ^ (- e)) in
  let x := 4 * Z.pos m * u in
  let hi := x + 2 * u in
  let lo := if (Z.pos m =? 2 ^ 52) && (-1074 <? e) then x - u else x - 2 * u in
  let even := Z.even (Z.pos m) in
  let k := dp - n in
  let c := if 0 <=? k then x / (den * 10 ^ k) else (x * 10 ^ (- k)) / den in
  let inside (c : Z) : bool :=
    match cmp_dec c k lo den, cmp_dec c k hi den with
    | Gt, Lt => true
    | Eq, _ | _, Eq => even
    | _, _ => false
    end in
  let pick : option Z :=
    match inside c, inside (c + 1) with
    | true, true =>
        match cmp_dec (2 * c + 1) k (2 * x) den with
        | Gt => Some c
        | Lt => Some (c + 1)
        | Eq => Some (if Z.even c then c else c + 1)
        end
    | true, false => Some c
    | false, true => Some (c + 1)
    | false, false => None
    end in
  match pick, fuel with
  | Some d, _ => (d, k)
  | None, S fuel' => shortest_from fuel' (n + 1) m e dp
  | None, O => (c, k)
  end.

Definition shortest (m : positive) (e : Z) : Z * Z :=
  let a := if 0 <=? e then Z.pos m * 2 ^ e else Z.pos m in
  let b := if 0 <=? e then 1 else 2 ^ (- e) in
  let est := (Z.log2 a - Z.log2 b) * 1233 / 4096 in
  shortest_from 17 1 m e (decimal_point 8 a b est).

(** A number written without its trailing zeros, and how many were cut. *)
Fixpoint strip_zeros (fuel : nat) (c k : Z) : Z * Z :=
  match fuel with
  | O => (c, k)
  | S fuel' =>
      if (c mod 10 =? 0) && negb (c =? 0)
      then strip_zeros fuel' (c / 10) (k + 1) else (c, k)
  end.

Definition string_head (s : string) : string :=
  match s with
  | EmptyString => EmptyString
  | String c _ => String c EmptyString
  end.

Definition string_tail (s : string) : string :=
  match s with
  | EmptyString => EmptyString
  | String _ s' => s'
  end.

(** The digits [ds] with the decimal point after the first [dp] of them:
    fixed notation when [-4 < dp <= 16], else with an exponent. *)
Definition place_point (ds : string) (dp : Z) : string :=
  let nd := Z.of_nat (String.length ds) in
  if (-4 <? dp) && (dp <=? 16) then
    if dp <=? 0 then "0." +++ Str.repeat "0"%char (Z.to_nat (- dp)) +++ ds
    else if nd <=? dp
         then ds +++ Str.repeat "0"%char (Z.to_nat (dp - nd)) +++ ".0"
         else String.substring 0 (Z.to_nat dp) ds +++ "."
              +++ String.substring (Z.to_nat dp) (Z.to_nat (nd - dp)) ds
  else
    string_head ds
    +++ (if nd =? 1 then "" else "." +++ string_tail ds)
    +++ "e" +++ (if dp - 1 <? 0 then "-" else "+")
    +++ Str.pad 2 (Z.abs (dp - 1)).

(** [repr(x)], which is also [str(x)]. *)
Definition repr_float (x : float) : string :=
  match Prim2SF x with
  | S754_nan => "nan"
  | S754_infinity s => if s then "-inf" else "inf"
  | S754_zero s => if s then "-0.0" else "0.0"
  | S754_finite s m e =>
      let '(c, k) := shortest m e in
      let '(c', k') := strip_zeros 17 c k in
      let ds := Str.of_Z c' in
      (if s then "-" else "")
      +++ place_point ds (k' + Z.of_nat (String.length ds))
  end.


(** *** [repr] and [str] of a value *)

Fixpoint repr (v : pyval) : string :=
  match v with
  | PNone => "None"
  | PBool b => if b then "True" else "False"
  | PInt z => Str.of_Z z
  | PFloat f => repr_float f
  | PStr s => repr_str s
  | PList l => "[" +++ Str.join ", " (map repr l) +++ "]"
  | PDict d =>
      "{" +++ Str.join ", "
                (map (fun kv => repr_str (fst kv) +++ ": " +++ repr (snd kv)) d)
      +++ "}"
  end.

(** [str(v)], which is what [f"{v}"] interpolates. *)
Definition str (v : pyval) : string :=
  match v with
  | PStr s => s
  | _ => repr v
  end.

(** *** Subscripts and iteration *)

Fixpoint lookup (k : string) (d : list (string * pyval)) : option pyval :=
  match d with
  | [] => None
  | (k', v) :: d' => if String.eqb k k' then Some v else lookup k d'
  end.

(** The position an index [i] names in a sequence of length [len]; a
    negative index counts from the end. *)
Definition position (i : Z) (len : nat) : option nat :=
  let j := if i <? 0 then i + Z.of_nat len else i in
  if (0 <=? j) && (j <? Z.of_nat len) then Some (Z.to_nat j) else None.

(** [v[k]] *)
Definition getitem (v : pyval) (k : subscript) : result pyval :=
  match v, k with
  | PDict d, Key s =>
      match lookup s d with
      | Some x => Ok x
      | None => Raise (mk_exn KeyError (repr_str s))
      end
  | PDict d, Idx i => Raise (mk_exn KeyError (Str.of_Z i))
  | PList l, Idx i =>
      match position i (List.length l) with
      | Some n =>
          match nth_error l n with
          | Some x => Ok x
          | None => Raise (mk_exn IndexError "list index out of range")
          end
      | None => Raise (mk_exn IndexError "list index out of range")
      end
  | PList _, Key _ =>
      Raise (mk_exn TypeError "list indices must be integers or slices, not str")
  | PStr s, Idx i =>
      match position i (String.length s) with
      | Some n =>
          match String.get n s with
          | Some c => Ok (PStr (String c EmptyString))
          | None => Raise (mk_exn IndexError "string index out of range")
          end
      | None => Raise (mk_exn IndexError "string index out of range")
      end
  | PStr _, Key _ =>
      Raise (mk_exn TypeError "string indices must be integers, not 'str'")
  | _, _ =>
      Raise (mk_exn TypeError (quoted (type_name v) +++ " object is not subscriptable"))
  end.

(** The items a [for] loop over [v] visits. *)
Definition iter (v : pyval) : result (list pyval) :=
  match v with
  | PList l => Ok l
  | PDict d => Ok (map (fun kv => PStr (fst kv)) d)
  | PStr s => Ok (map PStr (Str.chars s))
  | _ => Raise (mk_exn TypeError (quoted (type_name v) +++ " object is not iterable"))
  end.

End Py.

(** ** [datetime]

    A [datetime] holds the fields of a calendar date and a time of day.
    The record type of [models.py] documents its timestamp as a time in
    UTC, and the only constructor call of the program passes
    [timezone.utc]: the fields are read as UTC. *)

Record datetime : Type := mk_datetime {
  year : Z;
  month : Z;
  day : Z;
  hour : Z;
  minute : Z;
  second : Z;
  microsecond : Z
}.

Module Datetime.

Local Open Scope result_scope.

(** The civil date of the day [z] days after 1970-01-01, in the
    proleptic Gregorian calendar. *)
Definition civil_from_days (z : Z) : Z * Z * Z :=
  let z := z + 719468 in
  let era := z / 146097 in
  let doe := z - era * 146097 in
  let yoe := (doe - doe / 1460 + doe / 36524 - doe / 146096) / 365 in
  let doy := doe - (365 * yoe + yoe / 4 - yoe / 100) in
  let mp := (5 * doy + 2) / 153 in
  let d := doy - (153 * mp + 2) / 5 + 1 in
  let m := if mp <? 10 then mp + 3 else mp - 9 in
  (yoe + era * 400 + (if m <=? 2 then 1 else 0), m, d).

Definition out_of_time_t : exn :=
  mk_exn OverflowError "timestamp out of range for platform time_t".

(** The seconds and microseconds of a timestamp: an [int] is taken as it
    is when it fits a 64-bit [time_t]; a [float] is split into its whole
    and fractional parts, the fraction scaled to microseconds and
    rounded to the nearest integer, ties to even. *)
Definition timeval (v : pyval) : result (Z * Z) :=
  let of_int (z : Z) : result (Z * Z) :=
    if (- 2 ^ 63 <=? z) && (z <? 2 ^ 63) then Ok (z, 0)
    else Raise out_of_time_t in
  match v with
  | PInt z => of_int z
  | PBool b => of_int (if b then 1 else 0)
  | PFloat x =>
      match Prim2SF x with
      | S754_nan => Raise (mk_exn ValueError "Invalid value NaN (not a number)")
      | S754_infinity _ => Raise out_of_time_t
      | S754_zero _ => Ok (0, 0)
      | S754_finite s m e =>
          let whole := if 0 <=? e then Z.pos m * 2 ^ e
                       else Z.pos m / 2 ^ (- e) in
          let frac := (x - Py.nearest_float s whole 1)%float in
          let us :=
            match Prim2SF (frac * 1000000)%float with
            | S754_finite s' m' e' =>
                let n := if 0 <=? e' then Z.pos m' * 2 ^ e'
                         else Py.round_half_even (Z.pos m') (2 ^ (- e')) in
                if s' then - n else n
            | _ => 0
            end in
          let sec := if s then - whole else whole in
          let '(sec, us) :=
            if 1000000 <=? us then (sec + 1, us - 1000000)
            else if us <? 0 then (sec - 1, us + 1000000)
            else (sec, us) in
          if (- 2 ^ 63 <=? sec) && (sec <=? 2 ^ 63) then Ok (sec, us)
          else Raise out_of_time_t
      end
  | _ => Raise (mk_exn TypeError
                  (Py.quoted (Py.type_name v)
                   +++ " object cannot be interpreted as an integer"))
  end.

(** [datetime.fromtimestamp(v, timezone.utc)]: the UTC date and time
    [v] seconds after the epoch.  It fails with [OSError] when the
    platform's [gmtime] cannot hold the year in a C [int], and with
    [ValueError] when the year is outside 1..9999; the message shows the
    year as the C [int] that holds it, which wraps around from 2^31
    on. *)
Definition fromtimestamp (v : pyval) : result datetime :=
  let? tv := timeval v in
  let '(sec, us) := tv in
  let '(y, m, d) := civil_from_days (sec / 86400) in
  let r := sec mod 86400 in
  if negb ((- 2 ^ 31 <=? y - 1900) && (y - 1900 <? 2 ^ 31))
  then Raise (mk_exn OSError "[Errno 75] Value too large for defined data type")
  else if negb ((1 <=? y) && (y <=? 9999))
  then Raise (mk_exn ValueError
                ("year " +++ Str.of_Z (if 2 ^ 31 <=? y then y - 2 ^ 32 else y)
                 +++ " is out of range"))
  else Ok (mk_datetime y m d (r / 3600) (r mod 3600 / 60) (r mod 60) us).

(** [t.strftime('%Y-%m-%d %H:%M:%S')]: the C library prints the year in
    decimal without padding, so a year below 1000 takes fewer than four
    digits; the other fields are zero-padded to two digits. *)
Definition strftime (t : datetime) : string :=
  Str.of_Z (year t) +++ "-" +++ Str.pad 2 (month t) +++ "-"
  +++ Str.pad 2 (day t) +++ " " +++ Str.pad 2 (hour t) +++ ":"
  +++ Str.pad 2 (minute t) +++ ":" +++ Str.pad 2 (second t).

End Datetime.

(** ** The HTTP library *)

(** A [requests.Response]: [json] is what [response.json()] returns or
    raises. *)
Record Response : Type := mk_Response {
  status_code : Z;
  reason : string;
  url : string;
  json : result pyval
}.

(** The message [raise_for_status] builds; empty when the status is not an
    error. *)
Definition http_error_msg (response : Response) : string :=
  let msg (kind : string) :=
    Str.of_Z (status_code response) +++ " " +++ kind +++ " Error: "
    +++ reason response +++ " for url: " +++ url response in
  if (400 <=? status_code response) && (status_code response <? 500)
  then msg "Client"
  else if (500 <=? status_code response) && (status_code response <? 600)
  then msg "Server"
  else "".

(** [response.raise_for_status()] *)
Definition raise_for_status (response : Response) : result unit :=
  if String.eqb (http_error_msg response) "" then Ok tt
  else Raise (mk_exn HTTPError (http_error_msg response)).

(** ** models.py *)

Record WeatherData : Type := mk_WeatherData {
  city_name : pyval;
  temperature : pyval;
  condition : pyval;
  humidity : pyval;
  wind_speed : pyval;
  timestamp : option datetime
}.

(** ** Program state *)

(** The attributes of a [WeatherAPIService] object. *)
Record WeatherAPIService : Type := mk_WeatherAPIService {
  api_key : string;
  base_url : string
}.

(** A reference to a [WeatherData] object: its position in the heap. *)
Definition ref : Type := nat.

(** The state a run threads: the service object the client holds, the
    [WeatherData] objects allocated so far, what was written to standard
    output, and the URLs requested so far. *)
Record state : Type := mk_state {
  service : WeatherAPIService;
  heap : list WeatherData;
  stdout : list string;
  requests : list string
}.

(** Computations that read and write the state and may raise. *)
Definition M (A : Type) : Type := state -> result A * state.

Definition ret {A : Type} (a : A) : M A := fun st => (Ok a, st).

Definition raise {A : Type} (e : exn) : M A := fun st => (Raise e, st).

Definition bind {A B : Type} (c : M A) (k : A -> M B) : M B :=
  fun st =>
    match c st with
    | (Ok a, st') => k a st'
    | (Raise e, st') => (Raise e, st')
    end.

Declare Scope M_scope.
Delimit Scope M_scope with M.
Bind Scope M_scope with M.
Notation "x <- c ;; k" := (bind c (fun x => k))
  (at level 61, c at next level, right associativity) : M_scope.
Notation "c ;; k" := (bind c (fun _ => k))
  (at level 61, right associativity) : M_scope.
Local Open Scope M_scope.

(** A pure computation that may raise, run inside [M]. *)
Definition lift {A : Type} (r : result A) : M A := fun st => (r, st).

(** Runs [c] and hands its outcome, value or exception, to the caller:
    the entry of a [try] statement. *)
Definition attempt {A : Type} (c : M A) : M (result A) :=
  fun st => let '(r, st') := c st in (Ok r, st').

(** The state after [s] is written to standard output. *)
Definition wrote (st : state) (s : string) : state :=
  mk_state (service st) (heap st) (stdout st ++ [s]) (requests st).

(** The state after the objects [ws] are allocated. *)
Definition stored (st : state) (ws : list WeatherData) : state :=
  mk_state (service st) (heap st ++ ws) (stdout st) (requests st).

(** The state after the URL [u] is requested. *)
Definition logged (st : state) (u : string) : state :=
  mk_state (service st) (heap st) (stdout st) (requests st ++ [u]).

(** The state after the chunks [out] are written to standard output. *)
Definition wrote_all (st : state) (out : list string) : state :=
  mk_state (service st) (heap st) (stdout st ++ out) (requests st).

(** [sys.stdout.write(s)] *)
Definition write (s : string) : M unit := fun st => (Ok tt, wrote st s).

(** [print(s)] *)
Definition print (s : string) : M unit := write (s +++ Str.newline).

(** The service object the client holds, [self] in [api_service.py]. *)
Definition get_self : M WeatherAPIService := fun st => (Ok (service st), st).

(** The constructor call [WeatherData(...)]: a new object in the heap. *)
Definition new_WeatherData (w : WeatherData) : M ref :=
  fun st => (Ok (List.length (heap st)), stored st [w]).

(** Reads the object behind a reference.  A reference the program holds
    always names an object; [SystemError] marks the unreachable case. *)
Definition deref (r : ref) : M WeatherData :=
  fun st =>
    match nth_error (heap st) r with
    | Some w => (Ok w, st)
    | None => (Raise (mk_exn OtherException "SystemError"), st)
    end.

(** What the whole standard output reads, as one string. *)
Fixpoint captured (out : list string) : string :=
  match out with
  | [] => EmptyString
  | s :: rest => s +++ captured rest
  end.

(** What the computation [c] writes when it starts in [st]. *)
Definition output_of {A : Type} (c : M A) (st : state) : list string :=
  skipn (List.length (stdout st)) (stdout (snd (c st))).

Section Program.

(** The network: what [requests.get(url, timeout=5)] returns or raises,
    given the URLs requested before.  A connection failure or a timeout
    is an exception of class [OtherRequestException]. *)
Variable net : list string -> string -> result Response.

Definition requests_get (u : string) : M Response :=
  fun st => (net (requests st) u, logged st u).

(** ** api_service.py *)

(** [WeatherAPIService.__init__] *)
Definition WeatherAPIService_init (key : string) : WeatherAPIService :=
  mk_WeatherAPIService key "http://api.openweathermap.org/data/2.5".

Definition _kelvin_to_celsius (kelvin : pyval) : result float :=
  Py.sub_float kelvin 273.15.

(** The arguments of the constructor call in [fetch_current_weather],
    evaluated from left to right. *)
Definition current_fields (data : pyval) : result WeatherData :=
  (let? name := Py.getitem data (Key "name") in
   let? main := Py.getitem data (Key "main") in
   let? temp := Py.getitem main (Key "temp") in
   let? celsius := _kelvin_to_celsius temp in
   let? weather := Py.getitem data (Key "weather") in
   let? first := Py.getitem weather (Idx 0) in
   let? description := Py.getitem first (Key "description") in
   let? main' := Py.getitem data (Key "main") in
   let? hum := Py.getitem main' (Key "humidity") in
   let? wind := Py.getitem data (Key "wind") in
   let? speed := Py.getitem wind (Key "speed") in
   let? dt := Py.getitem data (Key "dt") in
   let? time := Datetime.fromtimestamp dt in
   Ok (mk_WeatherData name (PFloat (Py.round1 celsius)) description hum
         speed (Some time)))%result.

(** The [except] clauses of [fetch_current_weather] and [fetch_forecast];
    [response] is [None] while the local variable is not bound, and
    [what] is the word that differs between the two messages. *)
Definition handler {A : Type} (what : string) (not_found : A)
    (response : option Response) (e : exn) : M A :=
  if is_HTTPError e then
    match response with
    | None =>
        raise (mk_exn UnboundLocalError
                 "cannot access local variable 'response' where it is not associated with a value")
    | Some response =>
        if status_code response =? 404 then ret not_found
        else raise (mk_exn WeatherAPIError ("HTTP error occurred: " +++ exn_str e))
    end
  else if is_RequestException e then
    raise (mk_exn WeatherAPIError
             ("Error fetching " +++ what +++ " data: " +++ exn_str e))
  else raise e.

(** The [try] statement the two fetch operations share: [body] runs once
    [response] is bound. *)
Definition try_request {A : Type} (u what : string) (not_found : A)
    (body : Response -> M A) : M A :=
  got <- attempt (requests_get u) ;;
  match got with
  | Raise e => handler what not_found None e
  | Ok response =>
      done <- attempt (body response) ;;
      match done with
      | Ok a => ret a
      | Raise e => handler what not_found (Some response) e
      end
  end.

(** The f-string [f"{self.base_url}/weather?q={city}&appid={self.api_key}"]. *)
Definition weather_url (self : WeatherAPIService) (city : string) : string :=
  base_url self +++ "/weather?q=" +++ city +++ "&appid=" +++ api_key self.

Definition fetch_current_weather (city : string) : M (option ref) :=
  self <- get_self ;;
  let u := weather_url self city in
  try_request u "weather" None
    (fun response =>
       lift (raise_for_status response) ;;
       data <- lift (json response) ;;
       fields <- lift (current_fields data) ;;
       r <- new_WeatherData fields ;;
       ret (Some r)).

(** The arguments of the constructor call in the loop of
    [fetch_forecast]. *)
Definition forecast_fields (data item : pyval) : result WeatherData :=
  (let? city := Py.getitem data (Key "city") in
   let? name := Py.getitem city (Key "name") in
   let? main := Py.getitem item (Key "main") in
   let? temp := Py.getitem main (Key "temp") in
   let? celsius := _kelvin_to_celsius temp in
   let? weather := Py.getitem item (Key "weather") in
   let? first := Py.getitem weather (Idx 0) in
   let? description := Py.getitem first (Key "description") in
   let? main' := Py.getitem item (Key "main") in
   let? hum := Py.getitem main' (Key "humidity") in
   let? wind := Py.getitem item (Key "wind") in
   let? speed := Py.getitem wind (Key "speed") in
   let? dt := Py.getitem item (Key "dt") in
   let? time := Datetime.fromtimestamp dt in
   Ok (mk_WeatherData name (PFloat (Py.round1 celsius)) description hum
         speed (Some time)))%result.

(** The [for] loop of [fetch_forecast]: [forecast_list] grows by one
    reference per item. *)
Fixpoint forecast_loop (data : pyval) (items : list pyval)
    (forecast_list : list ref) : M (list ref) :=
  match items with
  | [] => ret forecast_list
  | item :: rest =>
      fields <- lift (forecast_fields data item) ;;
      r <- new_WeatherData fields ;;
      forecast_loop data rest (forecast_list ++ [r])
  end.

(** The f-string [f"{self.base_url}/forecast?q={city}&appid={self.api_key}"]. *)
Definition forecast_url (self : WeatherAPIService) (city : string) : string :=
  base_url self +++ "/forecast?q=" +++ city +++ "&appid=" +++ api_key self.

Definition fetch_forecast (city : string) : M (list ref) :=
  self <- get_self ;;
  let u := forecast_url self city in
  try_request u "forecast" []
    (fun response =>
       lift (raise_for_status response) ;;
       data <- lift (json response) ;;
       items <- lift (let? l := Py.getitem data (Key "list") in Py.iter l)%result ;;
       forecast_loop data items []).

(** ** weather_client.py *)

(** [WeatherClient.__init__]: the state of a fresh client, which holds a
    new service object. *)
Definition WeatherClient_init (key : string) : state :=
  mk_state (WeatherAPIService_init key) [] [] [].

(** The attribute read [weather.f]. *)
Definition attr {A : Type} (weather : ref) (f : WeatherData -> A) : M A :=
  w <- deref weather ;; ret (f w).

Definition display_weather (weather : ref) : M unit :=
  name <- attr weather city_name ;;
  print (Str.newline +++ "Weather for " +++ Py.str name +++ ":") ;;
  temp <- attr weather temperature ;;
  print ("Temperature: " +++ Py.str temp +++ Str.degree +++ "C") ;;
  cond <- attr weather condition ;;
  print ("Condition: " +++ Py.str cond) ;;
  hum <- attr weather humidity ;;
  print ("Humidity: " +++ Py.str hum +++ "%") ;;
  speed <- attr weather wind_speed ;;
  print ("Wind Speed: " +++ Py.str speed +++ " m/s") ;;
  time <- attr weather timestamp ;;
  match time with
  | Some t => print ("Time: " +++ Datetime.strftime t +++ " UTC")
  | None => ret tt
  end.

(** The body of the [for] loop of [display_forecast], once per record. *)
Fixpoint display_each (forecast : list ref) : M unit :=
  match forecast with
  | [] => ret tt
  | weather :: rest =>
      print (Str.repeat "-"%char 40) ;;
      display_weather weather ;;
      display_each rest
  end.

Definition display_forecast (forecast : list ref) : M unit :=
  first <- lift (match forecast with
                 | r :: _ => Ok r
                 | [] => Raise (mk_exn IndexError "list index out of range")
                 end) ;;
  name <- attr first city_name ;;
  print (Str.newline +++ "5-Day Forecast for " +++ Py.str name +++ ":") ;;
  display_each forecast.

(** [input(prompt)]: the prompt is written, then the line the user
    typed is returned, or the exception the read ends with is raised
    ([KeyboardInterrupt], or [EOFError] at the end of the input). *)
Definition input (prompt : string) (typed : result string) : M string :=
  write prompt ;; lift typed.

(** What the loop over the cities does for a city that is not empty. *)
Definition process_city (city : string) : M unit :=
  print (Str.newline +++ "Fetching weather for " +++ city +++ "...") ;;
  current_weather <- fetch_current_weather city ;;
  match current_weather with
  | Some w => display_weather w
  | None => print ("City '" +++ city +++ "' not found.")
  end ;;
  forecast <- fetch_forecast city ;;
  match forecast with
  | _ :: _ => display_forecast forecast
  | [] => print ("No forecast available for '" +++ city +++ "'.")
  end.

(** [for city in cities]: an empty name is skipped. *)
Fixpoint for_cities (cities : list string) : M unit :=
  match cities with
  | [] => ret tt
  | city :: rest =>
      (if String.eqb city "" then ret tt else process_city city) ;;
      for_cities rest
  end.

(** The [try] block of one turn of the [while] loop; [false] is
    [break]. *)
Definition turn_body (typed : result string) : M bool :=
  line <- input "Cities: " typed ;;
  let user_input := Str.strip line in
  if String.eqb (Str.lower user_input) "quit" then
    print "Exiting..." ;; ret false
  else
    let cities := map Str.strip (Str.split ","%char user_input) in
    for_cities cities ;; ret true.

(** One turn of the [while True] loop with its [except] clauses. *)
Definition turn (typed : result string) : M bool :=
  r <- attempt (turn_body typed) ;;
  match r with
  | Ok continue => ret continue
  | Raise e =>
      if is_WeatherAPIError e then
        print ("Error: " +++ exn_str e) ;; ret true
      else if is_KeyboardInterrupt e then
        print (Str.newline +++ "Exiting...") ;; ret false
      else if is_Exception e then
        print ("Unexpected error: " +++ exn_str e) ;; ret true
      else raise e
  end.

(** Where the loop stands once the reads in [inputs] are used up. *)
Inductive loop_state : Type :=
| AwaitingInput
| Exited.

Fixpoint loop (inputs : list (result string)) : M loop_state :=
  match inputs with
  | [] => ret AwaitingInput
  | typed :: rest =>
      continue <- turn typed ;;
      if continue then loop rest else ret Exited
  end.

Definition get_weather_for_cities (inputs : list (result string))
  : M loop_state :=
  print "Enter city names (separated by commas) or 'quit' to exit." ;;
  loop inputs.

(** [main]: [key] is what [os.getenv("WEATHER_API_KEY")] returns. *)
Definition main (key : option string) (inputs : list (result string))
  : result (result loop_state * state) :=
  match key with
  | None | Some EmptyString =>
      Raise (mk_exn ValueError
               "Please set the WEATHER_API_KEY environment variable or include it in a .env file.")
  | Some k => Ok (get_weather_for_cities inputs (WeatherClient_init k))
  end.

End Program.

(** ** Notions the statements use *)

(** The conversion as the specification words it: [round(k - 273.15, 1)]. *)
Definition rounded_celsius (k : pyval) : result pyval :=
  (let? c := Py.sub_float k 273.15 in Ok (PFloat (Py.round1 c)))%result.

(** The field path [main.temp] of a response or of a forecast entry. *)
Definition temp_of (item : pyval) : result pyval :=
  (let? main := Py.getitem item (Key "main") in Py.getitem main (Key "temp"))%result.

(** The field path [city.name] of a forecast response. *)
Definition city_of (data : pyval) : result pyval :=
  (let? city := Py.getitem data (Key "city") in Py.getitem city (Key "name"))%result.

(** The field paths [weather[0].description], [main.humidity] and
    [wind.speed]. *)
Definition description_of (item : pyval) : result pyval :=
  (let? weather := Py.getitem item (Key "weather") in
   let? first := Py.getitem weather (Idx 0) in
   Py.getitem first (Key "description"))%result.

Definition humidity_of (item : pyval) : result pyval :=
  (let? main := Py.getitem item (Key "main") in
   Py.getitem main (Key "humidity"))%result.

Definition speed_of (item : pyval) : result pyval :=
  (let? wind := Py.getitem item (Key "wind") in
   Py.getitem wind (Key "speed"))%result.

(** An entry that carries every field at its path, with a temperature
    that is a number and a [dt] that is a timestamp [datetime] accepts. *)
Definition readable_entry (item : pyval) : Prop :=
  exists temp celsius description hum speed dt time,
    temp_of item = Ok temp
    /\ Py.sub_float temp 273.15 = Ok celsius
    /\ description_of item = Ok description
    /\ humidity_of item = Ok hum
    /\ speed_of item = Ok speed
    /\ Py.getitem item (Key "dt") = Ok dt
    /\ Datetime.fromtimestamp dt = Ok time.

(** The fields [strftime] prints are those of a date and a time of day. *)
Definition in_range (t : datetime) : Prop :=
  1 <= year t <= 9999 /\ 1 <= month t <= 12 /\ 1 <= day t <= 31
  /\ 0 <= hour t <= 23 /\ 0 <= minute t <= 59 /\ 0 <= second t <= 59.

(** The shape [YYYY-MM-DD HH:MM:SS]. *)
Definition timestamp_shape (s : string) : Prop :=
  exists yyyy mm dd hh mi ss,
    s = yyyy +++ "-" +++ mm +++ "-" +++ dd +++ " " +++ hh +++ ":" +++ mi
        +++ ":" +++ ss
    /\ String.length yyyy = 4%nat /\ String.length mm = 2%nat
    /\ String.length dd = 2%nat /\ String.length hh = 2%nat
    /\ String.length mi = 2%nat /\ String.length ss = 2%nat.

(** The entries of a forecast response: what the loop over [data["list"]]
    visits. *)
Definition entries_of (data : pyval) : result (list pyval) :=
  (let? l := Py.getitem data (Key "list") in Py.iter l)%result.

(** The records of all entries, when every entry has its fields. *)
Fixpoint all_fields (data : pyval) (items : list pyval)
  : result (list WeatherData) :=
  match items with
  | [] => Ok []
  | item :: rest =>
      (let? w := forecast_fields data item in
       let? ws := all_fields data rest in
       Ok (w :: ws))%result
  end.

(** An HTTP error status: the ones [raise_for_status] raises for. *)
Definition error_status (response : Response) : Prop :=
  400 <= status_code response < 600.

(** A network-level failure: the request raises, and not an HTTP error. *)
Definition network_failure (e : exn) : Prop :=
  exn_cls e = OtherRequestException.

(** A failed request: an HTTP error status other than 404, or a
    network-level failure. *)
Definition failed (answer : result Response) : Prop :=
  match answer with
  | Ok response => error_status response /\ status_code response <> 404
  | Raise e => network_failure e
  end.

(** The message of the [WeatherAPIError] a failed request ends in; [what]
    is ["weather"] or ["forecast"]. *)
Definition failure_message (what : string) (answer : result Response) : string :=
  match answer with
  | Ok response => "HTTP error occurred: " +++ http_error_msg response
  | Raise e => "Error fetching " +++ what +++ " data: " +++ exn_str e
  end.


(** What [display_weather] writes for a record with the fields of [w]:
    one chunk per call of [print]. *)
Definition weather_block (w : WeatherData) : list string :=
  [(Str.newline +++ "Weather for " +++ Py.str (city_name w) +++ ":") +++ Str.newline;
   ("Temperature: " +++ Py.str (temperature w) +++ Str.degree +++ "C") +++ Str.newline;
   ("Condition: " +++ Py.str (condition w)) +++ Str.newline;
   ("Humidity: " +++ Py.str (humidity w) +++ "%") +++ Str.newline;
   ("Wind Speed: " +++ Py.str (wind_speed w) +++ " m/s") +++ Str.newline]
  ++ match timestamp w with
     | Some t => [("Time: " +++ Datetime.strftime t +++ " UTC") +++ Str.newline]
     | None => []
     end.

(** The block of the record behind [x] in the heap of [st]. *)
Definition block_at (st : state) (x : ref) : list string :=
  match nth_error (heap st) x with
  | Some w => weather_block w
  | None => []
  end.

(** The rule [display_forecast] prints before each block. *)
Definition dash_rule : string := Str.repeat "-"%char 40 +++ Str.newline.

(** The computation [c] leaves the configuration of the service as it
    is, and every object of the heap as it is: it may only allocate. *)
Definition unchanged {A : Type} (c : M A) : Prop :=
  forall st : state,
    service (snd (c st)) = service st
    /\ forall (r : ref) (w : WeatherData),
        nth_error (heap st) r = Some w ->
        nth_error (heap (snd (c st))) r = Some w.

(** The frame of every step: the service object is the same, and the heap
    only grows at its end. *)
Definition frame (st st' : state) : Prop :=
  service st' = service st /\ exists ws, heap st' = heap st ++ ws.

(** What a built-in operation raises is an [Exception], never an
    interrupt. *)
Definition raises_exceptions {A : Type} (r : result A) : Prop :=
  forall e, r = Raise e -> is_Exception e = true.

(** A value satisfies [Q], an exception satisfies [E]. *)
Definition outcome {A : Type} (E : exn -> Prop) (Q : A -> Prop)
    (r : result A) : Prop :=
  match r with
  | Ok a => Q a
  | Raise e => E e
  end.

(** From every state, [c] moves to a state related by [R]; a value it
    returns satisfies [Q], and an exception it raises satisfies [E]. *)
Definition sat {A : Type} (R : state -> state -> Prop) (E : exn -> Prop)
    (c : M A) (Q : A -> Prop) : Prop :=
  forall st, R st (snd (c st)) /\ outcome E Q (fst (c st)).

(** The line that ends the loop: ["quit"] in any case, once stripped. *)
Definition is_quit (line : string) : bool :=
  String.eqb (Str.lower (Str.strip line)) "quit".


(** The format of the time line as the specification words it: every
    date and time of day is printed in the shape [YYYY-MM-DD HH:MM:SS]. *)
Definition always_in_shape : Prop :=
  forall t, in_range t -> timestamp_shape (Datetime.strftime t).

(** ** Sample data

    The responses the tests of the repository mock, and networks that
    answer by URL. *)

Definition london_entry : list (string * pyval) :=
  [("main", PDict [("temp", PFloat 283.15); ("humidity", PInt 80)]);
   ("weather", PList [PDict [("description", PStr "clear sky")]]);
   ("wind", PDict [("speed", PFloat 5.0)]);
   ("dt", PInt 1635778800)].

Definition london_current : pyval := PDict (("name", PStr "London") :: london_entry).

(** Two forecast entries; the second has a name of its own. *)
Definition london_entries : list pyval :=
  [PDict london_entry; PDict (("name", PStr "elsewhere") :: london_entry)].

Definition london_forecast : pyval :=
  PDict [("city", PDict [("name", PStr "London")]);
         ("list", PList london_entries)].

Definition ok_response (u : string) (data : pyval) : Response :=
  mk_Response 200 "OK" u (Ok data).

Definition not_found_response (u : string) : Response :=
  mk_Response 404 "Not Found" u
    (Ok (PDict [("cod", PStr "404"); ("message", PStr "city not found")])).

Definition server_error_response (u : string) : Response :=
  mk_Response 500 "Internal Server Error" u
    (Raise (mk_exn OtherRequestException "Expecting value: line 1 column 1 (char 0)")).

Definition connection_error : exn :=
  mk_exn OtherRequestException "Connection refused".

(** A network that answers a URL of the table with its entry, whatever
    was requested before, and refuses every other connection. *)
Fixpoint table_net (table : list (string * result Response))
    (sent : list string) (u : string) : result Response :=
  match table with
  | [] => Raise connection_error
  | (u', answer) :: rest =>
      if String.eqb u u' then answer else table_net rest sent u
  end.

Definition sample_service : WeatherAPIService := WeatherAPIService_init "KEY".

Definition current_of (city : string) : string := weather_url sample_service city.
Definition forecast_of (city : string) : string := forecast_url sample_service city.

(** London is known, Atlantis is not, and the server fails for Paris. *)
Definition sample_net : list string -> string -> result Response :=
  table_net
    [(current_of "London", Ok (ok_response (current_of "London") london_current));
     (forecast_of "London", Ok (ok_response (forecast_of "London") london_forecast));
     (current_of "Atlantis", Ok (not_found_response (current_of "Atlantis")));
     (forecast_of "Atlantis", Ok (not_found_response (forecast_of "Atlantis")));
     (current_of "Paris", Ok (server_error_response (current_of "Paris")));
     (forecast_of "Paris", Ok (server_error_response (forecast_of "Paris")))].

Definition sample_state : state := WeatherClient_init "KEY".

(** London is not found, and Paris is known. *)
Definition batch_net : list string -> string -> result Response :=
  table_net
    [(current_of "London", Ok (not_found_response (current_of "London")));
     (forecast_of "London", Ok (not_found_response (forecast_of "London")));
     (current_of "Paris", Ok (ok_response (current_of "Paris") london_current));
     (forecast_of "Paris", Ok (ok_response (forecast_of "Paris") london_forecast))].

(** The record the tests of the client display. *)
Definition test_record : WeatherData :=
  mk_WeatherData (PStr "London") (PFloat 10.0) (PStr "clear sky") (PInt 80)
    (PFloat 5.0) (Some (mk_datetime 2023 11 1 12 0 0 0)).

(** The same reading three hours later, without a timestamp. *)
Definition later_record : WeatherData :=
  mk_WeatherData (PStr "London") (PFloat 8.5) (PStr "light rain") (PInt 93)
    (PInt 4) None.

(** A state whose heap holds the two records, at references 0 and 1. *)
Definition test_state : state := stored sample_state [test_record; later_record].

(** ** Notions of the further properties *)

(** The names one turn of the loop goes through:
    [[city.strip() for city in user_input.split(",")]], where [user_input]
    is the line read, stripped. *)
Definition cities_of (line : string) : list string :=
  map Str.strip (Str.split ","%char (Str.strip line)).

(** The classes of the errors that reading a decoded body raises: a
    missing key, an index out of range, a value of the wrong type, and the
    errors of [float] and [datetime.fromtimestamp]. *)
Definition is_data_error (e : exn) : bool :=
  match exn_cls e with
  | KeyError | IndexError | TypeError | ValueError | OverflowError | OSError => true
  | _ => false
  end.

(** An exception [r] raises satisfies [P]. *)
Definition raises_only {A : Type} (P : exn -> bool) (r : result A) : Prop :=
  forall e, r = Raise e -> P e = true.

(** An exception one of the [except] clauses of the loop takes: an
    [Exception] or a [KeyboardInterrupt]. *)
Definition is_handled (e : exn) : bool :=
  is_Exception e || is_KeyboardInterrupt e.

(** What a request or the decoding of a body raises is taken by a clause
    of the loop. *)
Definition handled_net (net : list string -> string -> result Response) : Prop :=
  forall sent u,
    outcome (fun e => is_handled e = true)
      (fun response =>
         outcome (fun e => is_handled e = true) (fun _ => True) (json response))
      (net sent u).

(** What a read at the prompt raises is taken by a clause of the loop. *)
Definition handled_input (typed : result string) : Prop :=
  outcome (fun e => is_handled e = true) (fun _ => True) typed.

(** A name as a user types it between commas: not empty, no comma in it,
    no white space around it. *)
Definition clean (city : string) : Prop :=
  city <> "" /\ Str.strip city = city
  /\ ~ In ","%char (list_ascii_of_string city).

(** A line of white space and commas only. *)
Definition blank (line : string) : Prop :=
  forall c, In c (list_ascii_of_string line) ->
            Str.isspace c = true \/ c = ","%char.

(** A URL of the API for the service [self]: the current weather or the
    forecast of a city with a clean name. *)
Definition api_request (self : WeatherAPIService) (u : string) : Prop :=
  exists city,
    clean city /\ (u = weather_url self city \/ u = forecast_url self city).

(** The requests of [st'] are those of [st] and then requests to the API
    of the service, which stays the same. *)
Definition sends_to_api (st st' : state) : Prop :=
  service st' = service st
  /\ exists us, requests st' = requests st ++ us
                /\ Forall (api_request (service st)) us.

(** The computation [c] sends requests to the API only, and keeps the
    service. *)
Definition api_only {A : Type} (c : M A) : Prop :=
  sat sends_to_api (fun _ => True) c (fun _ => True).

(** [main] ends with an exception, raised by its own check or by the
    loop. *)
Definition main_raises (r : result (result loop_state * state)) : Prop :=
  match r with
  | Raise _ => True
  | Ok (Raise _, _) => True
  | Ok (Ok _, _) => False
  end.

(** What [process_city] writes for a city that is found, whose current
    record is [w] and whose forecast records are [ws]. *)
Definition city_report (city : string) (w : WeatherData) (ws : list WeatherData)
  : list string :=
  [(Str.newline +++ "Fetching weather for " +++ city +++ "...") +++ Str.newline]
  ++ weather_block w
  ++ match ws with
     | [] => [("No forecast available for '" +++ city +++ "'.") +++ Str.newline]
     | first :: _ =>
         ((Str.newline +++ "5-Day Forecast for " +++ Py.str (city_name first) +++ ":")
          +++ Str.newline)
         :: List.concat (map (fun x => dash_rule :: weather_block x) ws)
     end.

(** ** More sample data *)

(** A current-weather body that lacks its [name]. *)
Definition nameless_current : pyval := PDict london_entry.

(** A forecast entry that lacks its [dt]. *)
Definition broken_entry : pyval :=
  PDict [("main", PDict [("temp", PFloat 283.15); ("humidity", PInt 80)]);
         ("weather", PList [PDict [("description", PStr "mist")]]);
         ("wind", PDict [("speed", PFloat 1.5)])].

(** A forecast whose second entry is the broken one. *)
Definition broken_forecast : pyval :=
  PDict [("city", PDict [("name", PStr "London")]);
         ("list", PList [PDict london_entry; broken_entry; PDict london_entry])].

(** A forecast without entries, and without the [city] field. *)
Definition empty_forecast : pyval := PDict [("list", PList [])].

(** London answers without a name and with a broken forecast; Oslo has
    a current weather and no forecast entry. *)
Definition odd_net : list string -> string -> result Response :=
  table_net
    [(current_of "London", Ok (ok_response (current_of "London") nameless_current));
     (forecast_of "London", Ok (ok_response (forecast_of "London") broken_forecast));
     (current_of "Oslo", Ok (ok_response (current_of "Oslo") london_current));
     (forecast_of "Oslo", Ok (ok_response (forecast_of "Oslo") empty_forecast))].

(** The read at the end of the input. *)
Definition end_of_input : exn := mk_exn EOFError "EOF when reading a line".

(** A network on which every request is interrupted from the keyboard. *)
Definition interrupted_net : list string -> string -> result Response :=
  fun _ _ => Raise (mk_exn KeyboardInterrupt "").

(** A network on which the request itself raises an [HTTPError]. *)
Definition http_error_net : list string -> string -> result Response :=
  fun _ _ => Raise (mk_exn HTTPError "error").

(** The record of the sample response for London. *)
Definition london_record : WeatherData :=
  mk_WeatherData (PStr "London") (PFloat 10.0) (PStr "clear sky") (PInt 80)
    (PFloat 5.0) (Some (mk_datetime 2021 11 1 15 0 0 0)).

(** A reading dated 385-07-25 07:06:40 UTC, fifty thousand million
    seconds before the epoch. *)
Definition early_current : pyval :=
  PDict [("name", PStr "Rome");
         ("main", PDict [("temp", PFloat 283.15); ("humidity", PInt 80)]);
         ("weather", PList [PDict [("description", PStr "clear sky")]]);
         ("wind", PDict [("speed", PFloat 5.0)]);
         ("dt", PInt (-50000000000))].

Definition early_time : datetime := mk_datetime 385 7 25 7 6 40 0.

Definition early_record : WeatherData :=
  mk_WeatherData (PStr "Rome") (PFloat 10.0) (PStr "clear sky") (PInt 80)
    (PFloat 5.0) (Some early_time).

(** Rome answers with the early reading. *)
Definition early_net : list string -> string -> result Response :=
  table_net
    [(current_of "Rome", Ok (ok_response (current_of "Rome") early_current))].

(** * Properties *)

Section Facts.

Variable net : list string -> string -> result Response.

(** ** Dates *)

Lemma civil_month_day (z : Z) :
  1 <= snd (fst (Datetime.civil_from_days z)) <= 12
  /\ 1 <= snd (Datetime.civil_from_days z) <= 31.
Proof.
  unfold Datetime.civil_from_days. cbv zeta. cbn [fst snd].
  destruct (_ <? 10) eqn:E1; Z.div_mod_to_equations; lia.
Qed.

Lemma civil_year (z : Z) :
  -719162 <= z <= 2932896 ->
  1 <= fst (fst (Datetime.civil_from_days z)) <= 9999.
Proof.
  intros H. unfold Datetime.civil_from_days. cbv zeta. cbn [fst snd].
  destruct (_ <? 10) eqn:E1; destruct (_ <=? 2) eqn:E2;
    Z.div_mod_to_equations; lia.
Qed.

(** Whatever [fromtimestamp] returns is a date and a time of day. *)
Lemma fromtimestamp_in_range (v : pyval) (t : datetime) :
  Datetime.fromtimestamp v = Ok t -> in_range t.
Proof.
  unfold Datetime.fromtimestamp.
  destruct (Datetime.timeval v) as [[sec us] | e]; [ | intros H; discriminate H ].
  unfold rbind. pose proof (civil_month_day (sec / 86400)) as Hmd.
  destruct (Datetime.civil_from_days (sec / 86400)) as [[y m] d].
  cbn [fst snd] in Hmd. cbv beta iota zeta.
  destruct (negb _); [ intros H; discriminate H | ].
  destruct ((1 <=? y) && (y <=? 9999)) eqn:Ey; cbn [negb];
    [ | intros H; discriminate H ].
  intros H. inversion H; subst. unfold in_range. cbn [year month day hour minute second].
  apply andb_prop in Ey. destruct Ey as [Ey1 Ey2].
  repeat split; try lia; Z.div_mod_to_equations; lia.
Qed.

(** Every whole second from year 1 to year 9999 is a timestamp
    [fromtimestamp] accepts. *)
Lemma fromtimestamp_seconds (z : Z) :
  -62135596800 <= z <= 253402300799 ->
  exists t, Datetime.fromtimestamp (PInt z) = Ok t.
Proof.
  intros H. unfold Datetime.fromtimestamp, Datetime.timeval.
  replace ((- 2 ^ 63 <=? z) && (z <? 2 ^ 63)) with true by lia.
  unfold rbind. pose proof (civil_year (z / 86400)) as Hy.
  destruct (Datetime.civil_from_days (z / 86400)) as [[y m] d].
  cbn [fst snd] in Hy. cbv beta iota zeta.
  assert (Hd : -719162 <= z / 86400 <= 2932896)
    by (Z.div_mod_to_equations; lia).
  specialize (Hy Hd).
  replace ((- 2 ^ 31 <=? y - 1900) && (y - 1900 <? 2 ^ 31)) with true by lia.
  replace ((1 <=? y) && (y <=? 9999)) with true by lia.
  cbn [negb]. eexists. reflexivity.
Qed.

Lemma pad_2 (z : Z) : 0 <= z < 100 -> String.length (Str.pad 2 z) = 2%nat.
Proof.
  intros H.
  assert (A : forallb (fun n => Nat.eqb (String.length (Str.pad 2 (Z.of_nat n))) 2)
                (seq 0 (Z.to_nat 100)) = true) by (vm_compute; reflexivity).
  rewrite forallb_forall in A.
  specialize (A (Z.to_nat z)). rewrite Z2Nat.id in A by lia.
  apply Nat.eqb_eq. apply A. apply in_seq. lia.
Qed.

(** A year from 1000 to 9999 takes four digits. *)
Lemma year_digits (z : Z) :
  1000 <= z < 10000 -> String.length (Str.of_Z z) = 4%nat.
Proof.
  intros H.
  assert (A : forallb (fun n => Nat.eqb (String.length (Str.of_Z (Z.of_nat n))) 4)
                (seq (Z.to_nat 1000) (Z.to_nat 9000)) = true)
    by (vm_compute; reflexivity).
  rewrite forallb_forall in A.
  specialize (A (Z.to_nat z)). rewrite Z2Nat.id in A by lia.
  apply Nat.eqb_eq. apply A. apply in_seq. lia.
Qed.

Lemma strftime_shape (t : datetime) :
  in_range t -> 1000 <= year t -> timestamp_shape (Datetime.strftime t).
Proof.
  intros (Hy & Hm & Hd & Hh & Hmi & Hs) Hy'.
  exists (Str.of_Z (year t)), (Str.pad 2 (month t)), (Str.pad 2 (day t)),
    (Str.pad 2 (hour t)), (Str.pad 2 (minute t)), (Str.pad 2 (second t)).
  split; [ reflexivity | ].
  repeat split; first [ apply year_digits | apply pad_2 ]; lia.
Qed.

Lemma length_append (a b : string) :
  String.length (a +++ b) = (String.length a + String.length b)%nat.
Proof. induction a as [ | x a IH]; simpl; [ reflexivity | rewrite IH; reflexivity ]. Qed.

(** A string of the shape has 19 characters. *)
Lemma timestamp_shape_length (s : string) :
  timestamp_shape s -> String.length s = 19%nat.
Proof.
  intros (yyyy & mm & dd & hh & mi & ss & Hs & H1 & H2 & H3 & H4 & H5 & H6).
  subst s. repeat (rewrite length_append; simpl). lia.
Qed.

(** ** The [try] statement of the fetch operations *)

Lemma try_request_eq {A : Type} (u what : string) (not_found : A)
    (body : Response -> M A) (st : state) :
  try_request net u what not_found body st =
  match net (requests st) u with
  | Raise e => handler what not_found None e (logged st u)
  | Ok response =>
      match body response (logged st u) with
      | (Ok a, st2) => (Ok a, st2)
      | (Raise e, st2) => handler what not_found (Some response) e st2
      end
  end.
Proof.
  unfold try_request, bind, attempt, requests_get.
  destruct (net (requests st) u) as [response | e]; simpl; [ | reflexivity ].
  destruct (body response (logged st u)) as [[a | e] st2]; reflexivity.
Qed.

(** The handler returns a value only for a bound response with status
    404, and then the value is the one for "not found". *)
Lemma handler_returns {A : Type} (what : string) (not_found a : A)
    (bound : option Response) (e : exn) (st st' : state) :
  handler what not_found bound e st = (Ok a, st') ->
  a = not_found /\ st' = st /\
  exists response, bound = Some response /\ status_code response = 404.
Proof.
  unfold handler, raise, ret.
  destruct (is_HTTPError e).
  - destruct bound as [response | ]; [ | discriminate ].
    destruct (status_code response =? 404) eqn:E; [ | discriminate ].
    intros H; inversion H; subst.
    repeat split. exists response. split; [ reflexivity | lia ].
  - destruct (is_RequestException e); discriminate.
Qed.

Lemma http_error_msg_empty (response : Response) :
  String.eqb (http_error_msg response) "" = true <-> ~ error_status response.
Proof.
  unfold http_error_msg, error_status.
  destruct (400 <=? status_code response) eqn:E1;
    destruct (status_code response <? 500) eqn:E2;
    destruct (500 <=? status_code response) eqn:E3;
    destruct (status_code response <? 600) eqn:E4; simpl;
    try (split; [ intros _; lia | reflexivity ]);
    destruct (Str.of_Z (status_code response)); simpl;
    split; intros H; try discriminate; exfalso; apply H; lia.
Qed.

Lemma raise_for_status_ok (response : Response) :
  raise_for_status response = Ok tt <-> ~ error_status response.
Proof.
  rewrite <- http_error_msg_empty. unfold raise_for_status.
  destruct (String.eqb (http_error_msg response) ""); split;
    intros H; try reflexivity; discriminate.
Qed.

Lemma raise_for_status_raises (response : Response) :
  error_status response ->
  raise_for_status response = Raise (mk_exn HTTPError (http_error_msg response)).
Proof.
  intros H. unfold raise_for_status.
  destruct (String.eqb (http_error_msg response) "") eqn:E; [ | reflexivity ].
  apply http_error_msg_empty in E. contradiction.
Qed.

(** ** [fetch_current_weather] *)

Lemma fetch_current_weather_eq (city : string) (st : state) :
  fetch_current_weather net city st =
  let u := weather_url (service st) city in
  match net (requests st) u with
  | Raise e => handler "weather" None None e (logged st u)
  | Ok response =>
      match raise_for_status response with
      | Raise e => handler "weather" None (Some response) e (logged st u)
      | Ok _ =>
          match json response with
          | Raise e => handler "weather" None (Some response) e (logged st u)
          | Ok data =>
              match current_fields data with
              | Raise e => handler "weather" None (Some response) e (logged st u)
              | Ok w =>
                  (Ok (Some (List.length (heap st))), stored (logged st u) [w])
              end
          end
      end
  end.
Proof.
  unfold fetch_current_weather, bind at 1, get_self. simpl.
  rewrite try_request_eq.
  destruct (net (requests st) (weather_url (service st) city)) as [response | e];
    [ | reflexivity ].
  unfold bind, lift, new_WeatherData, ret.
  destruct (raise_for_status response); [ | reflexivity ].
  destruct (json response) as [data | e]; [ | reflexivity ].
  destruct (current_fields data); reflexivity.
Qed.

Lemma fetch_current_weather_inv (city : string) (st st' : state) (r : ref) :
  fetch_current_weather net city st = (Ok (Some r), st') ->
  exists response data w,
    net (requests st) (weather_url (service st) city) = Ok response
    /\ ~ error_status response
    /\ json response = Ok data
    /\ current_fields data = Ok w
    /\ r = List.length (heap st)
    /\ st' = stored (logged st (weather_url (service st) city)) [w].
Proof.
  rewrite fetch_current_weather_eq. cbv zeta.
  destruct (net (requests st) (weather_url (service st) city)) as [response | e].
  2: { intros H. apply handler_returns in H. destruct H as [H _]. discriminate. }
  destruct (raise_for_status response) as [[] | e] eqn:Es.
  2: { intros H. apply handler_returns in H. destruct H as [H _]. discriminate. }
  destruct (json response) as [data | e] eqn:Ej.
  2: { intros H. apply handler_returns in H. destruct H as [H _]. discriminate. }
  destruct (current_fields data) as [w | e] eqn:Ef.
  2: { intros H. apply handler_returns in H. destruct H as [H _]. discriminate. }
  intros H. inversion H; subst.
  exists response, data, w. repeat split; try assumption.
  apply raise_for_status_ok. exact Es.
Qed.

(** ** [fetch_forecast] *)

Lemma all_fields_nth (data : pyval) (items : list pyval)
    (ws : list WeatherData) (i : nat) (item : pyval) :
  all_fields data items = Ok ws ->
  nth_error items i = Some item ->
  exists w, nth_error ws i = Some w /\ forecast_fields data item = Ok w.
Proof.
  revert ws i. induction items as [ | item' rest IH]; intros ws i; simpl.
  - intros _ H. destruct i; discriminate.
  - destruct (forecast_fields data item') as [w | e] eqn:E; simpl; [ | discriminate ].
    destruct (all_fields data rest) as [ws' | e]; simpl; [ | discriminate ].
    intros H; inversion H; subst. destruct i as [ | i]; simpl.
    + intros H'; inversion H'; subst. exists w. split; [ reflexivity | exact E ].
    + intros H'. apply (IH ws' i eq_refl H').
Qed.

Lemma stored_stored (st : state) (ws ws' : list WeatherData) :
  stored (stored st ws) ws' = stored st (ws ++ ws').
Proof. unfold stored. simpl. rewrite <- app_assoc. reflexivity. Qed.

(** The loop allocates one object per entry, in order, at consecutive
    positions of the heap. *)
Lemma forecast_loop_ok (data : pyval) (items : list pyval)
    (ws : list WeatherData) (acc : list ref) (st : state) :
  all_fields data items = Ok ws ->
  forecast_loop data items acc st =
  (Ok (acc ++ seq (List.length (heap st)) (List.length items)), stored st ws).
Proof.
  revert ws acc st. induction items as [ | item rest IH]; intros ws acc st; simpl.
  - intros H; inversion H; subst. unfold ret, stored.
    rewrite !app_nil_r. destruct st; reflexivity.
  - destruct (forecast_fields data item) as [w | e]; simpl; [ | discriminate ].
    destruct (all_fields data rest) as [ws' | e] eqn:E; simpl; [ | discriminate ].
    intros H; inversion H; subst.
    unfold bind, lift, new_WeatherData. simpl.
    rewrite (IH ws' _ _ eq_refl). rewrite stored_stored. simpl.
    rewrite <- app_assoc. simpl. rewrite length_app. simpl.
    rewrite Nat.add_1_r. reflexivity.
Qed.

Lemma forecast_loop_inv (data : pyval) (items : list pyval)
    (acc refs : list ref) (st st' : state) :
  forecast_loop data items acc st = (Ok refs, st') ->
  exists ws, all_fields data items = Ok ws.
Proof.
  revert acc st. induction items as [ | item rest IH]; intros acc st; simpl.
  - intros _. exists []. reflexivity.
  - unfold bind, lift, new_WeatherData.
    destruct (forecast_fields data item) as [w | e]; simpl; [ | discriminate ].
    intros H. apply IH in H. destruct H as [ws' H]. rewrite H. simpl.
    exists (w :: ws'). reflexivity.
Qed.

Lemma fetch_forecast_eq (city : string) (st : state) :
  fetch_forecast net city st =
  let u := forecast_url (service st) city in
  match net (requests st) u with
  | Raise e => handler "forecast" [] None e (logged st u)
  | Ok response =>
      match raise_for_status response with
      | Raise e => handler "forecast" [] (Some response) e (logged st u)
      | Ok _ =>
          match json response with
          | Raise e => handler "forecast" [] (Some response) e (logged st u)
          | Ok data =>
              match entries_of data with
              | Raise e => handler "forecast" [] (Some response) e (logged st u)
              | Ok items =>
                  match forecast_loop data items [] (logged st u) with
                  | (Ok refs, st2) => (Ok refs, st2)
                  | (Raise e, st2) => handler "forecast" [] (Some response) e st2
                  end
              end
          end
      end
  end.
Proof.
  unfold fetch_forecast, bind at 1, get_self. simpl.
  rewrite try_request_eq.
  destruct (net (requests st) (forecast_url (service st) city)) as [response | e];
    [ | reflexivity ].
  unfold bind, lift, entries_of.
  destruct (raise_for_status response); [ | reflexivity ].
  destruct (json response) as [data | e]; [ | reflexivity ].
  destruct (Py.getitem data (Key "list")) as [l | e]; simpl; [ | reflexivity ].
  destruct (Py.iter l); reflexivity.
Qed.

(** A successful response with readable entries: one record per entry. *)
Lemma fetch_forecast_ok (city : string) (st : state) (response : Response)
    (data : pyval) (items : list pyval) (ws : list WeatherData) :
  net (requests st) (forecast_url (service st) city) = Ok response ->
  ~ error_status response ->
  json response = Ok data ->
  entries_of data = Ok items ->
  all_fields data items = Ok ws ->
  fetch_forecast net city st =
  (Ok (seq (List.length (heap st)) (List.length items)),
   stored (logged st (forecast_url (service st) city)) ws).
Proof.
  intros Hn Hs Hj He Hf. rewrite fetch_forecast_eq. cbv zeta.
  rewrite Hn. apply raise_for_status_ok in Hs. rewrite Hs, Hj, He.
  rewrite (forecast_loop_ok _ _ _ _ _ Hf). reflexivity.
Qed.

(** What [fetch_forecast] returns is either the empty list for a 404, or
    one reference per entry of a successful response. *)
Lemma fetch_forecast_inv (city : string) (st st' : state) (refs : list ref) :
  fetch_forecast net city st = (Ok refs, st') ->
  exists response,
    net (requests st) (forecast_url (service st) city) = Ok response /\
    ((status_code response = 404 /\ refs = [])
     \/ exists data items ws,
          ~ error_status response
          /\ json response = Ok data
          /\ entries_of data = Ok items
          /\ all_fields data items = Ok ws
          /\ refs = seq (List.length (heap st)) (List.length items)
          /\ st' = stored (logged st (forecast_url (service st) city)) ws).
Proof.
  rewrite fetch_forecast_eq. cbv zeta.
  destruct (net (requests st) (forecast_url (service st) city)) as [response | e].
  2: { intros H. apply handler_returns in H.
       destruct H as (_ & _ & r & H & _). discriminate. }
  assert (Hh : forall e st2,
             handler "forecast" [] (Some response) e st2 = (Ok refs, st') ->
             status_code response = 404 /\ refs = []).
  { intros e st2 H. apply handler_returns in H.
    destruct H as (H1 & _ & r & H2 & H3). inversion H2; subst. split; auto. }
  intros H. exists response. split; [ reflexivity | ].
  destruct (raise_for_status response) as [[] | e] eqn:Es;
    [ | left; eapply Hh; eauto ].
  destruct (json response) as [data | e] eqn:Ej; [ | left; eapply Hh; eauto ].
  destruct (entries_of data) as [items | e] eqn:Ee; [ | left; eapply Hh; eauto ].
  destruct (forecast_loop data items [] (logged st (forecast_url (service st) city)))
    as [[refs' | e] st2] eqn:El; [ | left; eapply Hh; eauto ].
  inversion H; subst. right.
  destruct (forecast_loop_inv _ _ _ _ _ _ El) as [ws Hws].
  rewrite (forecast_loop_ok _ _ _ _ _ Hws) in El. inversion El; subst.
  exists data, items, ws. apply raise_for_status_ok in Es.
  repeat split; auto.
Qed.

(** ** Errors of the fetch operations *)

Lemma fetch_current_weather_404 (city : string) (st : state)
    (response : Response) :
  net (requests st) (weather_url (service st) city) = Ok response ->
  status_code response = 404 ->
  fetch_current_weather net city st
  = (Ok None, logged st (weather_url (service st) city)).
Proof.
  intros Hn Hs. rewrite fetch_current_weather_eq. cbv zeta. rewrite Hn.
  rewrite raise_for_status_raises by (unfold error_status; lia).
  unfold handler. simpl. rewrite Hs. reflexivity.
Qed.

Lemma fetch_forecast_404 (city : string) (st : state) (response : Response) :
  net (requests st) (forecast_url (service st) city) = Ok response ->
  status_code response = 404 ->
  fetch_forecast net city st
  = (Ok [], logged st (forecast_url (service st) city)).
Proof.
  intros Hn Hs. rewrite fetch_forecast_eq. cbv zeta. rewrite Hn.
  rewrite raise_for_status_raises by (unfold error_status; lia).
  unfold handler. simpl. rewrite Hs. reflexivity.
Qed.

(** C2. When the response to the current-weather request has status 404,
    [fetch_current_weather] returns [None] and raises nothing; only the
    request is recorded. *)
Theorem fetch_current_weather_not_found (city : string) (st : state)
    (response : Response) :
  net (requests st) (weather_url (service st) city) = Ok response ->
  status_code response = 404 ->
  fetch_current_weather net city st
  = (Ok None, logged st (weather_url (service st) city)).
Proof. apply fetch_current_weather_404. Qed.

Lemma handler_failed {A : Type} (what : string) (not_found : A)
    (response : Response) (st : state) :
  error_status response ->
  status_code response <> 404 ->
  handler what not_found (Some response)
    (mk_exn HTTPError (http_error_msg response)) st
  = (Raise (mk_exn WeatherAPIError (failure_message what (Ok response))), st).
Proof.
  intros _ Hs. unfold handler. simpl.
  destruct (status_code response =? 404) eqn:E; [ lia | reflexivity ].
Qed.

Lemma handler_network_failure {A : Type} (what : string) (not_found : A)
    (e : exn) (st : state) :
  network_failure e ->
  handler what not_found None e st
  = (Raise (mk_exn WeatherAPIError (failure_message what (Raise e))), st).
Proof.
  unfold network_failure, handler, is_HTTPError, is_RequestException.
  intros H. rewrite H. reflexivity.
Qed.

(** C3. When the current-weather request fails, with an HTTP error status
    other than 404 or with a network-level failure,
    [fetch_current_weather] raises a [WeatherAPIError] that carries a
    message, and so returns no value. *)
Theorem fetch_current_weather_failure (city : string) (st : state) :
  failed (net (requests st) (weather_url (service st) city)) ->
  fetch_current_weather net city st
  = (Raise (mk_exn WeatherAPIError
              (failure_message "weather"
                 (net (requests st) (weather_url (service st) city)))),
     logged st (weather_url (service st) city)).
Proof.
  rewrite fetch_current_weather_eq. cbv zeta.
  destruct (net (requests st) (weather_url (service st) city)) as [response | e];
    simpl.
  - intros [He Hs]. rewrite (raise_for_status_raises _ He).
    apply handler_failed; assumption.
  - apply handler_network_failure.
Qed.

(** C4. [fetch_forecast] returns the empty list when the response has
    status 404, and raises a [WeatherAPIError] when the request fails
    with another HTTP error status or with a network-level failure. *)
Theorem fetch_forecast_errors (city : string) (st : state) :
  (forall response,
      net (requests st) (forecast_url (service st) city) = Ok response ->
      status_code response = 404 ->
      fetch_forecast net city st
      = (Ok [], logged st (forecast_url (service st) city)))
  /\ (failed (net (requests st) (forecast_url (service st) city)) ->
      fetch_forecast net city st
      = (Raise (mk_exn WeatherAPIError
                  (failure_message "forecast"
                     (net (requests st) (forecast_url (service st) city)))),
         logged st (forecast_url (service st) city))).
Proof.
  split; [ apply fetch_forecast_404 | ].
  rewrite fetch_forecast_eq. cbv zeta.
  - destruct (net (requests st) (forecast_url (service st) city))
      as [response | e]; simpl.
    + intros [He Hs]. rewrite (raise_for_status_raises _ He).
      apply handler_failed; assumption.
    + apply handler_network_failure.
Qed.

(** ** Records built from a response *)

(** Splits a chain of [let?] that ended in [Ok] into its steps. *)
Ltac steps H :=
  repeat match type of H with
    | rbind ?r _ = Ok _ =>
        let x := fresh "x" in
        let E := fresh "E" in
        destruct r as [x | ] eqn:E; simpl in H; [ | discriminate H ]
    end.

Lemma current_fields_inv (data : pyval) (w : WeatherData) :
  current_fields data = Ok w ->
  exists k t,
    Py.getitem data (Key "name") = Ok (city_name w)
    /\ temp_of data = Ok k
    /\ rounded_celsius k = Ok (temperature w)
    /\ description_of data = Ok (condition w)
    /\ humidity_of data = Ok (humidity w)
    /\ speed_of data = Ok (wind_speed w)
    /\ timestamp w = Some t
    /\ in_range t.
Proof.
  unfold current_fields, temp_of, description_of, humidity_of, speed_of,
    rounded_celsius, _kelvin_to_celsius.
  intros H. steps H. inversion H; subst; simpl.
  match goal with
  | Ht : Datetime.fromtimestamp _ = Ok _ |- _ =>
      pose proof (fromtimestamp_in_range _ _ Ht)
  end.
  do 2 eexists.
  repeat (match goal with
          | E : ?l = Ok _ |- context [?l] => rewrite E
          end; simpl).
  repeat split; try reflexivity;
    try (match goal with
         | E : Py.sub_float _ _ = Ok _ |- _ => rewrite E
         end; reflexivity);
    unfold in_range in *; lia.
Qed.

Lemma forecast_fields_inv (data item : pyval) (w : WeatherData) :
  forecast_fields data item = Ok w ->
  exists k t,
    city_of data = Ok (city_name w)
    /\ temp_of item = Ok k
    /\ rounded_celsius k = Ok (temperature w)
    /\ description_of item = Ok (condition w)
    /\ humidity_of item = Ok (humidity w)
    /\ speed_of item = Ok (wind_speed w)
    /\ timestamp w = Some t
    /\ in_range t.
Proof.
  unfold forecast_fields, city_of, temp_of, description_of, humidity_of,
    speed_of, rounded_celsius, _kelvin_to_celsius.
  intros H. steps H. inversion H; subst; simpl.
  match goal with
  | Ht : Datetime.fromtimestamp _ = Ok _ |- _ =>
      pose proof (fromtimestamp_in_range _ _ Ht)
  end.
  do 2 eexists.
  repeat (match goal with
          | E : ?l = Ok _ |- context [?l] => rewrite E
          end; simpl).
  repeat split; try reflexivity;
    try (match goal with
         | E : Py.sub_float _ _ = Ok _ |- _ => rewrite E
         end; reflexivity);
    unfold in_range in *; lia.
Qed.

Lemma nth_error_stored (st : state) (ws : list WeatherData) (i : nat) :
  nth_error (heap (stored st ws)) (List.length (heap st) + i) = nth_error ws i.
Proof.
  unfold stored. simpl. rewrite nth_error_app2 by lia.
  f_equal. lia.
Qed.

Lemma nth_error_seq_inv (start len i r : nat) :
  nth_error (seq start len) i = Some r -> r = (start + i)%nat /\ (i < len)%nat.
Proof.
  intros H. assert (Hi : (i < len)%nat).
  { rewrite <- (length_seq len start). apply nth_error_Some. congruence. }
  split; [ | exact Hi ].
  rewrite <- (seq_nth start 0%nat Hi).
  symmetry. apply nth_error_nth. exact H.
Qed.

(** A reference [fetch_forecast] returns names the record of the entry at
    the same position. *)
Lemma fetch_forecast_record (city : string) (st st' : state)
    (refs : list ref) (i : nat) (r : ref) :
  fetch_forecast net city st = (Ok refs, st') ->
  nth_error refs i = Some r ->
  exists response data items item w,
    net (requests st) (forecast_url (service st) city) = Ok response
    /\ json response = Ok data
    /\ entries_of data = Ok items
    /\ nth_error items i = Some item
    /\ forecast_fields data item = Ok w
    /\ nth_error (heap st') r = Some w.
Proof.
  intros H Hr. apply fetch_forecast_inv in H.
  destruct H as (response & Hn & [[_ H] | H]).
  - subst. destruct i; discriminate.
  - destruct H as (data & items & ws & _ & Hj & He & Hf & Hrefs & Hst).
    subst refs. apply nth_error_seq_inv in Hr. destruct Hr as [Hr Hi].
    destruct (nth_error items i) as [item | ] eqn:Ei.
    2: { apply nth_error_None in Ei. lia. }
    destruct (all_fields_nth _ _ _ _ _ Hf Ei) as (w & Hw & Hfw).
    exists response, data, items, item, w. subst st' r.
    rewrite (nth_error_stored (logged st _) ws i).
    repeat split; assumption.
Qed.

(** ** C1: the stored temperature *)

(** C1. The temperature of every record [fetch_current_weather] or
    [fetch_forecast] produces is [round(k - 273.15, 1)], where [k] is the
    Kelvin value at [main.temp] of the response, or of the forecast entry
    at the position of the record; and 283.15 K gives exactly 10.0. *)
Theorem stored_temperature :
  (forall (city : string) (st st' : state) (r : ref),
      fetch_current_weather net city st = (Ok (Some r), st') ->
      exists response data k w,
        net (requests st) (weather_url (service st) city) = Ok response
        /\ json response = Ok data
        /\ temp_of data = Ok k
        /\ nth_error (heap st') r = Some w
        /\ rounded_celsius k = Ok (temperature w))
  /\ (forall (city : string) (st st' : state) (refs : list ref) (i : nat) (r : ref),
      fetch_forecast net city st = (Ok refs, st') ->
      nth_error refs i = Some r ->
      exists response data items item k w,
        net (requests st) (forecast_url (service st) city) = Ok response
        /\ json response = Ok data
        /\ entries_of data = Ok items
        /\ nth_error items i = Some item
        /\ temp_of item = Ok k
        /\ nth_error (heap st') r = Some w
        /\ rounded_celsius k = Ok (temperature w))
  /\ rounded_celsius (PFloat 283.15) = Ok (PFloat 10).
Proof.
  split; [ | split ].
  - intros city st st' r H. apply fetch_current_weather_inv in H.
    destruct H as (response & data & w & Hn & _ & Hj & Hf & Hr & Hst).
    destruct (current_fields_inv _ _ Hf) as (k & t & _ & Hk & Hc & _).
    exists response, data, k, w. subst r st'.
    rewrite <- (Nat.add_0_r (List.length (heap st))).
    rewrite (nth_error_stored (logged st _) [w] 0).
    repeat split; assumption.
  - intros city st st' refs i r H Hr.
    destruct (fetch_forecast_record _ _ _ _ _ _ H Hr)
      as (response & data & items & item & w & Hn & Hj & He & Hi & Hf & Hw).
    destruct (forecast_fields_inv _ _ _ Hf) as (k & t & _ & Hk & Hc & _).
    exists response, data, items, item, k, w. repeat split; assumption.
  - vm_compute. reflexivity.
Qed.

(** ** C5 and C10: the records of a forecast *)

(** An entry is readable exactly when the constructor call of the loop
    has all its arguments. *)
Lemma readable_entry_fields (data item name : pyval) :
  city_of data = Ok name ->
  readable_entry item ->
  exists w, forecast_fields data item = Ok w.
Proof.
  unfold city_of, readable_entry, temp_of, description_of, humidity_of, speed_of.
  intros Hc (temp & celsius & description & hum & speed & dt & time
             & H1 & H2 & H3 & H4 & H5 & H6 & H7).
  steps Hc. steps H1. steps H3. steps H4. steps H5.
  repeat match goal with
    | E : Ok _ = Ok _ |- _ => inversion E; clear E; subst
    end.
  unfold forecast_fields, _kelvin_to_celsius.
  repeat (match goal with
          | E : ?l = Ok _ |- context [?l] => rewrite E
          end; simpl).
  eexists. reflexivity.
Qed.

(** An entry with a float at [main.temp] and the seconds of a date from
    year 1 to year 9999 at [dt] is readable, once the other fields are
    there. *)
Lemma readable_entry_of_fields (item : pyval) (k : float)
    (description hum speed : pyval) (dt : Z) :
  temp_of item = Ok (PFloat k) ->
  description_of item = Ok description ->
  humidity_of item = Ok hum ->
  speed_of item = Ok speed ->
  Py.getitem item (Key "dt") = Ok (PInt dt) ->
  -62135596800 <= dt <= 253402300799 ->
  readable_entry item.
Proof.
  intros H1 H2 H3 H4 H5 Hdt.
  destruct (fromtimestamp_seconds dt Hdt) as [t Ht].
  exists (PFloat k), (k - 273.15)%float, description, hum, speed, (PInt dt), t.
  repeat split; assumption || reflexivity.
Qed.

Lemma all_fields_readable (data name : pyval) (items : list pyval) :
  city_of data = Ok name ->
  Forall readable_entry items ->
  exists ws, all_fields data items = Ok ws.
Proof.
  intros Hc H. induction H as [ | item rest Hitem _ IH]; simpl.
  - exists []. reflexivity.
  - destruct (readable_entry_fields _ _ _ Hc Hitem) as [w Hw].
    destruct IH as [ws Hws]. rewrite Hw, Hws. simpl.
    exists (w :: ws). reflexivity.
Qed.

(** C5. For a successful forecast response whose [list] field holds the
    entries [items], each of them readable, [fetch_forecast] returns
    exactly one reference per entry, all distinct and in the order of the
    entries; the record at position [i] is the one built from entry [i],
    and its city name is the [city.name] field of the response, whatever
    the entry holds. *)
Theorem fetch_forecast_records (city : string) (st : state)
    (response : Response) (data name : pyval) (items : list pyval) :
  net (requests st) (forecast_url (service st) city) = Ok response ->
  ~ error_status response ->
  json response = Ok data ->
  Py.getitem data (Key "list") = Ok (PList items) ->
  city_of data = Ok name ->
  Forall readable_entry items ->
  exists refs st',
    fetch_forecast net city st = (Ok refs, st')
    /\ List.length refs = List.length items
    /\ NoDup refs
    /\ forall i item,
        nth_error items i = Some item ->
        exists r w,
          nth_error refs i = Some r
          /\ nth_error (heap st') r = Some w
          /\ forecast_fields data item = Ok w
          /\ city_name w = name.
Proof.
  intros Hn Hs Hj Hl Hc Hr.
  destruct (all_fields_readable _ _ _ Hc Hr) as [ws Hf].
  assert (He : entries_of data = Ok items).
  { unfold entries_of. rewrite Hl. reflexivity. }
  exists (seq (List.length (heap st)) (List.length items)).
  exists (stored (logged st (forecast_url (service st) city)) ws).
  split; [ apply (fetch_forecast_ok _ _ _ _ _ _ Hn Hs Hj He Hf) | ].
  split; [ apply length_seq | ].
  split; [ apply seq_NoDup | ].
  intros i item Hi.
  destruct (all_fields_nth _ _ _ _ _ Hf Hi) as (w & Hw & Hfw).
  exists (List.length (heap st) + i)%nat, w.
  assert (Hlt : (i < List.length items)%nat).
  { apply nth_error_Some. congruence. }
  split.
  { rewrite (nth_error_nth' _ 0%nat) by (rewrite length_seq; exact Hlt).
    rewrite seq_nth by exact Hlt. reflexivity. }
  split; [ rewrite (nth_error_stored (logged st _) ws i); exact Hw | ].
  split; [ exact Hfw | ].
  destruct (forecast_fields_inv _ _ _ Hfw) as (k & t & Hcw & _).
  congruence.
Qed.

(** C10. Every record [fetch_current_weather] or [fetch_forecast] returns
    has a timestamp, although the record type lets it be absent; and the
    timestamp is a date and a time of day. *)
Theorem returned_records_have_timestamp :
  (forall (city : string) (st st' : state) (r : ref),
      fetch_current_weather net city st = (Ok (Some r), st') ->
      exists w t,
        nth_error (heap st') r = Some w /\ timestamp w = Some t /\ in_range t)
  /\ (forall (city : string) (st st' : state) (refs : list ref) (r : ref),
      fetch_forecast net city st = (Ok refs, st') ->
      In r refs ->
      exists w t,
        nth_error (heap st') r = Some w /\ timestamp w = Some t /\ in_range t).
Proof.
  split.
  - intros city st st' r H. apply fetch_current_weather_inv in H.
    destruct H as (response & data & w & _ & _ & _ & Hf & Hr & Hst).
    destruct (current_fields_inv _ _ Hf)
      as (k & t & _ & _ & _ & _ & _ & _ & Ht & Hrange).
    exists w, t. subst r st'.
    rewrite <- (Nat.add_0_r (List.length (heap st))).
    rewrite (nth_error_stored (logged st _) [w] 0).
    split; [ reflexivity | split; assumption ].
  - intros city st st' refs r H Hin.
    apply In_nth_error in Hin. destruct Hin as [i Hi].
    destruct (fetch_forecast_record _ _ _ _ _ _ H Hi)
      as (response & data & items & item & w & _ & _ & _ & _ & Hf & Hw).
    destruct (forecast_fields_inv _ _ _ Hf)
      as (k & t & _ & _ & _ & _ & _ & _ & Ht & Hrange).
    exists w, t. split; [ assumption | split; assumption ].
Qed.

(** ** The exceptions of the built-in operations

    What a built-in operation raises is an [Exception], never an
    interrupt. *)

Ltac by_cases :=
  let e := fresh "e" in
  let H := fresh "H" in
  intros e H;
  repeat match type of H with
    | context [match ?x with _ => _ end] => destruct x
    end;
  try discriminate H; inversion H; reflexivity.

Lemma raises_exceptions_rbind {A B : Type} (r : result A) (k : A -> result B) :
  raises_exceptions r -> (forall a, raises_exceptions (k a)) ->
  raises_exceptions (rbind r k).
Proof.
  intros Hr Hk e. destruct r as [a | e']; simpl.
  - apply Hk.
  - intros H. apply Hr. inversion H. reflexivity.
Qed.

Lemma raises_exceptions_Ok {A : Type} (a : A) : raises_exceptions (Ok a).
Proof. intros e H. discriminate H. Qed.

Lemma raise_for_status_exceptions (response : Response) :
  raises_exceptions (raise_for_status response).
Proof. unfold raise_for_status. by_cases. Qed.

Lemma getitem_exceptions (v : pyval) (k : subscript) :
  raises_exceptions (Py.getitem v k).
Proof. unfold Py.getitem. destruct v, k; by_cases. Qed.

Lemma iter_exceptions (v : pyval) : raises_exceptions (Py.iter v).
Proof. unfold Py.iter. destruct v; by_cases. Qed.

Lemma float_of_int_exceptions (z : Z) : raises_exceptions (Py.float_of_int z).
Proof. unfold Py.float_of_int. by_cases. Qed.

Lemma sub_float_exceptions (v : pyval) (c : float) :
  raises_exceptions (Py.sub_float v c).
Proof.
  unfold Py.sub_float. destruct v;
    try (apply raises_exceptions_rbind;
         [ apply float_of_int_exceptions | intros; apply raises_exceptions_Ok ]);
    by_cases.
Qed.

Lemma timeval_exceptions (v : pyval) : raises_exceptions (Datetime.timeval v).
Proof. unfold Datetime.timeval, Datetime.out_of_time_t. destruct v; by_cases. Qed.

Lemma fromtimestamp_exceptions (v : pyval) :
  raises_exceptions (Datetime.fromtimestamp v).
Proof.
  unfold Datetime.fromtimestamp. apply raises_exceptions_rbind.
  - apply timeval_exceptions.
  - intros [sec us]. by_cases.
Qed.

Ltac chain :=
  repeat first
    [ apply raises_exceptions_Ok
    | apply getitem_exceptions
    | apply iter_exceptions
    | apply sub_float_exceptions
    | apply fromtimestamp_exceptions
    | apply raises_exceptions_rbind; [ | intros ? ] ].

Lemma current_fields_exceptions (data : pyval) :
  raises_exceptions (current_fields data).
Proof. unfold current_fields, _kelvin_to_celsius. chain. Qed.

Lemma forecast_fields_exceptions (data item : pyval) :
  raises_exceptions (forecast_fields data item).
Proof. unfold forecast_fields, _kelvin_to_celsius. chain. Qed.

Lemma entries_of_exceptions (data : pyval) : raises_exceptions (entries_of data).
Proof. unfold entries_of. chain. Qed.

(** ** A small program logic

    The rules of [sat], for a relation [R] between states that is
    reflexive and transitive, and a property [E] of exceptions. *)

Section Logic.

Variable R : state -> state -> Prop.
Variable E : exn -> Prop.
Hypothesis R_refl : forall st, R st st.
Hypothesis R_trans : forall st1 st2 st3, R st1 st2 -> R st2 st3 -> R st1 st3.

Lemma sat_ret {A : Type} (a : A) (Q : A -> Prop) : Q a -> sat R E (ret a) Q.
Proof. intros H st. split; [ apply R_refl | exact H ]. Qed.

Lemma sat_raise {A : Type} (e : exn) (Q : A -> Prop) : E e -> sat R E (raise e) Q.
Proof. intros H st. split; [ apply R_refl | exact H ]. Qed.

Lemma sat_lift {A : Type} (r : result A) (Q : A -> Prop) :
  outcome E Q r -> sat R E (lift r) Q.
Proof. intros H st. split; [ apply R_refl | exact H ]. Qed.

Lemma sat_bind {A B : Type} (c : M A) (k : A -> M B)
    (P : A -> Prop) (Q : B -> Prop) :
  sat R E c P -> (forall a, P a -> sat R E (k a) Q) -> sat R E (bind c k) Q.
Proof.
  intros Hc Hk st. unfold bind. destruct (Hc st) as [HR HP].
  destruct (c st) as [[a | e] st1]; simpl in *.
  - destruct (Hk a HP st1) as [HR' HQ]. split; [ | exact HQ ].
    eapply R_trans; eassumption.
  - split; assumption.
Qed.

Lemma sat_attempt {A : Type} (c : M A) (Q : A -> Prop) :
  sat R E c Q -> sat R E (attempt c) (outcome E Q).
Proof.
  intros Hc st. unfold attempt. destruct (Hc st) as [HR HQ].
  destruct (c st) as [r st1]; simpl in *. split; assumption.
Qed.

(** The steps of the program that change the state, and the exceptions the
    network hands over. *)
Hypothesis R_wrote : forall st s, R st (wrote st s).
Hypothesis R_stored : forall st ws, R st (stored st ws).
Hypothesis R_logged : forall st u, R st (logged st u).
Hypothesis E_Exception : forall e, is_Exception e = true -> E e.
Hypothesis E_net :
  forall sent u,
    outcome E (fun response => outcome E (fun _ => True) (json response)) (net sent u).

Lemma sat_write (s : string) : sat R E (write s) (fun _ => True).
Proof. intros st. split; [ apply R_wrote | exact I ]. Qed.

Lemma sat_print (s : string) : sat R E (print s) (fun _ => True).
Proof. apply sat_write. Qed.

Lemma sat_new_WeatherData (w : WeatherData) :
  sat R E (new_WeatherData w) (fun _ => True).
Proof. intros st. split; [ apply R_stored | exact I ]. Qed.

Lemma sat_deref (r : ref) : sat R E (deref r) (fun _ => True).
Proof.
  intros st. unfold deref. destruct (nth_error (heap st) r); simpl.
  - split; [ apply R_refl | exact I ].
  - split; [ apply R_refl | apply E_Exception; reflexivity ].
Qed.

Lemma sat_get_self : sat R E get_self (fun _ => True).
Proof. intros st. split; [ apply R_refl | exact I ]. Qed.

Lemma sat_requests_get (u : string) :
  sat R E (requests_get net u)
    (fun response => outcome E (fun _ => True) (json response)).
Proof. intros st. split; [ apply R_logged | apply E_net ]. Qed.

Lemma sat_pure {A : Type} (r : result A) :
  raises_exceptions r -> sat R E (lift r) (fun _ => True).
Proof.
  intros H. apply sat_lift. destruct r as [a | e]; simpl; [ exact I | ].
  apply E_Exception. apply H. reflexivity.
Qed.

Lemma sat_handler {A : Type} (what : string) (not_found : A)
    (bound : option Response) (e : exn) :
  E e -> sat R E (handler what not_found bound e) (fun _ => True).
Proof.
  intros He. unfold handler. destruct (is_HTTPError e).
  - destruct bound as [response | ].
    + destruct (status_code response =? 404).
      * apply sat_ret. exact I.
      * apply sat_raise. apply E_Exception. reflexivity.
    + apply sat_raise. apply E_Exception. reflexivity.
  - destruct (is_RequestException e).
    + apply sat_raise. apply E_Exception. reflexivity.
    + apply sat_raise. exact He.
Qed.

Lemma sat_try_request {A : Type} (u what : string) (not_found : A)
    (body : Response -> M A) :
  (forall response,
      outcome E (fun _ => True) (json response) ->
      sat R E (body response) (fun _ => True)) ->
  sat R E (try_request net u what not_found body) (fun _ => True).
Proof.
  intros Hbody. unfold try_request.
  eapply sat_bind; [ apply sat_attempt; apply sat_requests_get | ].
  intros [response | e] Hgot; simpl in Hgot.
  - eapply sat_bind; [ apply sat_attempt; apply Hbody; exact Hgot | ].
    intros [a | e] Hdone; simpl in Hdone.
    + apply sat_ret. exact I.
    + apply sat_handler. exact Hdone.
  - apply sat_handler. exact Hgot.
Qed.

Lemma sat_fetch_current_weather (city : string) :
  sat R E (fetch_current_weather net city) (fun _ => True).
Proof.
  unfold fetch_current_weather.
  eapply sat_bind; [ apply sat_get_self | ]. intros self _.
  apply sat_try_request. intros response Hjson.
  eapply sat_bind; [ apply sat_pure; apply raise_for_status_exceptions | ].
  intros _ _.
  eapply sat_bind; [ apply sat_lift; exact Hjson | ]. intros data _.
  eapply sat_bind; [ apply sat_pure; apply current_fields_exceptions | ].
  intros fields _.
  eapply sat_bind; [ apply sat_new_WeatherData | ]. intros r _.
  apply sat_ret. exact I.
Qed.

Lemma sat_forecast_loop (data : pyval) (items : list pyval) (acc : list ref) :
  sat R E (forecast_loop data items acc) (fun _ => True).
Proof.
  revert acc. induction items as [ | item rest IH]; intros acc; simpl.
  - apply sat_ret. exact I.
  - eapply sat_bind; [ apply sat_pure; apply forecast_fields_exceptions | ].
    intros fields _.
    eapply sat_bind; [ apply sat_new_WeatherData | ]. intros r _.
    apply IH.
Qed.

Lemma sat_fetch_forecast (city : string) :
  sat R E (fetch_forecast net city) (fun _ => True).
Proof.
  unfold fetch_forecast.
  eapply sat_bind; [ apply sat_get_self | ]. intros self _.
  apply sat_try_request. intros response Hjson.
  eapply sat_bind; [ apply sat_pure; apply raise_for_status_exceptions | ].
  intros _ _.
  eapply sat_bind; [ apply sat_lift; exact Hjson | ]. intros data _.
  eapply sat_bind; [ apply sat_pure; apply (entries_of_exceptions data) | ].
  intros items _. apply sat_forecast_loop.
Qed.

Lemma sat_attr {A : Type} (r : ref) (f : WeatherData -> A) :
  sat R E (attr r f) (fun _ => True).
Proof.
  unfold attr. eapply sat_bind; [ apply sat_deref | ].
  intros w _. apply sat_ret. exact I.
Qed.

Lemma sat_display_weather (r : ref) : sat R E (display_weather r) (fun _ => True).
Proof.
  unfold display_weather.
  do 5 (eapply sat_bind; [ apply sat_attr | intros ? _ ];
        eapply sat_bind; [ apply sat_print | intros _ _ ]).
  eapply sat_bind; [ apply sat_attr | ].
  intros [t | ] _; [ apply sat_print | apply sat_ret; exact I ].
Qed.

Lemma sat_display_each (refs : list ref) : sat R E (display_each refs) (fun _ => True).
Proof.
  induction refs as [ | r rest IH]; simpl.
  - apply sat_ret. exact I.
  - eapply sat_bind; [ apply sat_print | ]. intros _ _.
    eapply sat_bind; [ apply sat_display_weather | ]. intros _ _.
    exact IH.
Qed.

Lemma sat_display_forecast (refs : list ref) :
  sat R E (display_forecast refs) (fun _ => True).
Proof.
  unfold display_forecast.
  eapply sat_bind.
  { apply sat_pure. destruct refs; intros e H; [ | discriminate H ].
    inversion H. reflexivity. }
  intros first _.
  eapply sat_bind; [ apply sat_attr | ]. intros name _.
  eapply sat_bind; [ apply sat_print | ]. intros _ _.
  apply sat_display_each.
Qed.

Lemma sat_process_city (city : string) : sat R E (process_city net city) (fun _ => True).
Proof.
  unfold process_city.
  eapply sat_bind; [ apply sat_print | ]. intros _ _.
  eapply sat_bind; [ apply sat_fetch_current_weather | ]. intros current _.
  apply (sat_bind _ _ (fun _ => True)).
  { destruct current; [ apply sat_display_weather | apply sat_print ]. }
  intros _ _.
  eapply sat_bind; [ apply sat_fetch_forecast | ]. intros forecast _.
  destruct forecast; [ apply sat_print | apply sat_display_forecast ].
Qed.

Lemma sat_for_cities (cities : list string) :
  sat R E (for_cities net cities) (fun _ => True).
Proof.
  induction cities as [ | city rest IH]; simpl.
  - apply sat_ret. exact I.
  - apply (sat_bind _ _ (fun _ => True)); [ | intros _ _; exact IH ].
    destruct (String.eqb city ""); [ apply sat_ret; exact I | apply sat_process_city ].
Qed.

Lemma sat_turn_body (typed : result string) :
  outcome E (fun _ => True) typed ->
  sat R E (turn_body net typed) (fun _ => True).
Proof.
  intros Htyped. unfold turn_body, input.
  eapply sat_bind.
  { eapply sat_bind; [ apply sat_write | ]. intros _ _.
    apply sat_lift. exact Htyped. }
  intros line _.
  destruct (String.eqb (Str.lower (Str.strip line)) "quit").
  - eapply sat_bind; [ apply sat_print | ]. intros _ _. apply sat_ret. exact I.
  - eapply sat_bind; [ apply sat_for_cities | ]. intros _ _. apply sat_ret. exact I.
Qed.

Lemma sat_turn (typed : result string) :
  outcome E (fun _ => True) typed ->
  sat R E (turn net typed) (fun _ => True).
Proof.
  intros Htyped. unfold turn.
  eapply sat_bind; [ apply sat_attempt; apply sat_turn_body; exact Htyped | ].
  intros [continue | e] He; simpl in He.
  - apply sat_ret. exact I.
  - destruct (is_WeatherAPIError e).
    { eapply sat_bind; [ apply sat_print | ]. intros _ _. apply sat_ret. exact I. }
    destruct (is_KeyboardInterrupt e).
    { eapply sat_bind; [ apply sat_print | ]. intros _ _. apply sat_ret. exact I. }
    destruct (is_Exception e).
    { eapply sat_bind; [ apply sat_print | ]. intros _ _. apply sat_ret. exact I. }
    apply sat_raise. exact He.
Qed.

Lemma sat_loop (inputs : list (result string)) :
  Forall (outcome E (fun _ => True)) inputs ->
  sat R E (loop net inputs) (fun _ => True).
Proof.
  induction inputs as [ | typed rest IH]; intros H; simpl.
  - apply sat_ret. exact I.
  - inversion H; subst.
    eapply sat_bind; [ apply sat_turn; assumption | ].
    intros [ | ] _; [ apply IH; assumption | apply sat_ret; exact I ].
Qed.

Lemma sat_get_weather_for_cities (inputs : list (result string)) :
  Forall (outcome E (fun _ => True)) inputs ->
  sat R E (get_weather_for_cities net inputs) (fun _ => True).
Proof.
  intros H. unfold get_weather_for_cities.
  eapply sat_bind; [ apply sat_print | ]. intros _ _.
  apply sat_loop. exact H.
Qed.

End Logic.

(** ** C9: what no operation changes *)

Lemma frame_refl (st : state) : frame st st.
Proof. split; [ reflexivity | ]. exists []. symmetry. apply app_nil_r. Qed.

Lemma frame_trans (st1 st2 st3 : state) :
  frame st1 st2 -> frame st2 st3 -> frame st1 st3.
Proof.
  intros [Hs1 [ws1 Hh1]] [Hs2 [ws2 Hh2]]. split; [ congruence | ].
  exists (ws1 ++ ws2). rewrite Hh2, Hh1. symmetry. apply app_assoc.
Qed.

Lemma frame_wrote (st : state) (s : string) : frame st (wrote st s).
Proof. exact (frame_refl st). Qed.

Lemma frame_stored (st : state) (ws : list WeatherData) : frame st (stored st ws).
Proof. split; [ reflexivity | ]. exists ws. reflexivity. Qed.

Lemma frame_logged (st : state) (u : string) : frame st (logged st u).
Proof. exact (frame_refl st). Qed.

Lemma frame_unchanged {A : Type} (c : M A) (Q : A -> Prop) :
  sat frame (fun _ => True) c Q -> unchanged c.
Proof.
  intros H st. destruct (H st) as [[Hs [ws Hh]] _]. split; [ exact Hs | ].
  intros r w Hr. rewrite Hh. rewrite nth_error_app1; [ exact Hr | ].
  apply nth_error_Some. congruence.
Qed.

Lemma any_input (inputs : list (result string)) :
  Forall (outcome (fun _ => True) (fun _ : string => True)) inputs.
Proof. apply Forall_forall. intros typed _. destruct typed; exact I. Qed.

(** C9. Every operation of the service, and every operation of the client,
    leaves the configuration of the service ([api_key] and [base_url]) as
    it is, and changes no record that exists: each object of the heap is
    the same after the operation as before it. *)
Theorem configuration_and_records_unchanged :
  (forall city, unchanged (fetch_current_weather net city))
  /\ (forall city, unchanged (fetch_forecast net city))
  /\ (forall weather, unchanged (display_weather weather))
  /\ (forall forecast, unchanged (display_forecast forecast))
  /\ (forall inputs, unchanged (get_weather_for_cities net inputs)).
Proof.
  assert (Hnet : forall sent u,
             outcome (fun _ => True)
               (fun response => outcome (fun _ => True) (fun _ => True) (json response))
               (net sent u)).
  { intros sent u. destruct (net sent u) as [response | e]; simpl; [ | exact I ].
    destruct (json response); exact I. }
  split; [ | split; [ | split; [ | split ] ] ]; intros x; eapply frame_unchanged.
  - exact (sat_fetch_current_weather frame (fun _ => True) frame_refl frame_trans
             frame_stored frame_logged (fun _ _ => I) Hnet x).
  - exact (sat_fetch_forecast frame (fun _ => True) frame_refl frame_trans
             frame_stored frame_logged (fun _ _ => I) Hnet x).
  - exact (sat_display_weather frame (fun _ => True) frame_refl frame_trans
             frame_wrote (fun _ _ => I) x).
  - exact (sat_display_forecast frame (fun _ => True) frame_refl frame_trans
             frame_wrote (fun _ _ => I) x).
  - exact (sat_get_weather_for_cities frame (fun _ => True) frame_refl frame_trans
             frame_wrote frame_stored frame_logged (fun _ _ => I) Hnet x
             (any_input x)).
Qed.

(** ** C8: the interactive loop *)


Lemma turn_body_cities (line : string) (st : state) :
  is_quit line = false ->
  turn_body net (Ok line) st
  = (for_cities net (map Str.strip (Str.split ","%char (Str.strip line))) ;;
     ret true) (wrote st "Cities: ").
Proof.
  unfold is_quit. intros H.
  unfold turn_body, input, bind at 1 2, write, lift. simpl.
  rewrite H. reflexivity.
Qed.


Lemma Exception_not_interrupt (e : exn) :
  is_Exception e = true -> is_KeyboardInterrupt e = false.
Proof.
  unfold is_Exception, is_KeyboardInterrupt.
  destruct (exn_class_eqb (exn_cls e) KeyboardInterrupt); simpl;
    [ discriminate | reflexivity ].
Qed.





(** ** C6 and C7: what the display operations write *)

Lemma append_assoc (a b c : string) : (a +++ b) +++ c = a +++ b +++ c.
Proof. induction a as [ | x a IH]; simpl; [ reflexivity | rewrite IH; reflexivity ]. Qed.

Lemma contains_captured (pre x post : string) (out : list string) :
  In (pre +++ x +++ post) out -> Str.contains x (captured out).
Proof.
  induction out as [ | s rest IH]; simpl; [ contradiction | ].
  intros [H | H].
  - subst s. exists pre, (post +++ captured rest).
    rewrite !append_assoc. reflexivity.
  - destruct (IH H) as (p & q & Hpq). exists (s +++ p), q.
    rewrite Hpq, append_assoc. reflexivity.
Qed.

Lemma wrote_all_nil (st : state) : wrote_all st [] = st.
Proof. unfold wrote_all. rewrite app_nil_r. destruct st; reflexivity. Qed.

Lemma output_of_wrote_all {A : Type} (c : M A) (st : state) (r : result A)
    (out : list string) :
  c st = (r, wrote_all st out) -> output_of c st = out.
Proof.
  intros H. unfold output_of. rewrite H. simpl.
  rewrite skipn_app, skipn_all, Nat.sub_diag. reflexivity.
Qed.

Lemma display_weather_eq (st : state) (weather : ref) (w : WeatherData) :
  nth_error (heap st) weather = Some w ->
  display_weather weather st = (Ok tt, wrote_all st (weather_block w)).
Proof.
  intros H. unfold display_weather, attr, bind, deref, print, write, ret.
  cbn [heap wrote]. repeat (rewrite H; cbn [heap wrote]).
  unfold weather_block, wrote, wrote_all.
  destruct (timestamp w) as [t | ]; cbn [heap service stdout requests app];
    repeat rewrite <- app_assoc; reflexivity.
Qed.

Lemma display_weather_block (st : state) (weather : ref) (w : WeatherData) :
  nth_error (heap st) weather = Some w ->
  output_of (display_weather weather) st = weather_block w.
Proof.
  intros H. eapply output_of_wrote_all. apply display_weather_eq. exact H.
Qed.

Lemma display_each_eq (forecast : list ref) (st : state) :
  (forall x, In x forecast -> nth_error (heap st) x <> None) ->
  display_each forecast st
  = (Ok tt,
     wrote_all st (List.concat (map (fun x => dash_rule :: block_at st x) forecast))).
Proof.
  revert st. induction forecast as [ | x rest IH]; intros st Hv; simpl.
  - unfold ret. rewrite wrote_all_nil. reflexivity.
  - destruct (nth_error (heap st) x) as [w | ] eqn:Hx.
    2: { exfalso. apply (Hv x); [ left; reflexivity | exact Hx ]. }
    unfold bind, print, write.
    match goal with
    | |- context [display_weather x ?s] => rewrite (display_weather_eq s x w Hx)
    end.
    rewrite IH.
    2: { intros y Hy. apply (Hv y). right. exact Hy. }
    f_equal. unfold wrote_all, wrote, block_at, dash_rule.
    cbn [heap service stdout requests List.concat map]. rewrite Hx.
    rewrite <- !app_assoc. reflexivity.
Qed.

Lemma block_at_output (st : state) (x : ref) :
  nth_error (heap st) x <> None ->
  block_at st x = output_of (display_weather x) st.
Proof.
  intros H. unfold block_at. destruct (nth_error (heap st) x) as [w | ] eqn:Hx.
  - symmetry. apply display_weather_block. exact Hx.
  - contradiction.
Qed.

(** C6, as amended.  For every record, [display_weather] writes the city
    header and the lines ["Temperature: {T}°C"], ["Condition: {desc}"],
    ["Humidity: {H}%"] and ["Wind Speed: {W} m/s"], each value shown as
    [str] shows it; when the record has a timestamp it also writes
    ["Time: {stamp} UTC"], where the stamp is what [strftime] prints for
    the fields of the timestamp, which are read as UTC; for a date and a
    time of day whose year is from 1000 to 9999 the stamp fills the shape
    [YYYY-MM-DD HH:MM:SS]; and a call of [print] writes a chunk that
    starts with ["Time: "] exactly when the timestamp is present. *)
Theorem display_weather_output (st : state) (weather : ref) (w : WeatherData) :
  nth_error (heap st) weather = Some w ->
  let out := output_of (display_weather weather) st in
  fst (display_weather weather st) = Ok tt
  /\ Str.contains ("Weather for " +++ Py.str (city_name w) +++ ":") (captured out)
  /\ Str.contains ("Temperature: " +++ Py.str (temperature w) +++ Str.degree +++ "C")
       (captured out)
  /\ Str.contains ("Condition: " +++ Py.str (condition w)) (captured out)
  /\ Str.contains ("Humidity: " +++ Py.str (humidity w) +++ "%") (captured out)
  /\ Str.contains ("Wind Speed: " +++ Py.str (wind_speed w) +++ " m/s") (captured out)
  /\ (forall t,
        timestamp w = Some t ->
        Str.contains ("Time: " +++ Datetime.strftime t +++ " UTC") (captured out)
        /\ (in_range t -> 1000 <= year t ->
            timestamp_shape (Datetime.strftime t)))
  /\ ((exists chunk, In chunk out /\ Str.startswith chunk "Time: " = true)
      <-> timestamp w <> None).
Proof.
  intros H out. subst out. rewrite (display_weather_block _ _ _ H).
  rewrite (display_weather_eq _ _ _ H).
  split; [ reflexivity | ].
  split.
  { apply (contains_captured Str.newline _ Str.newline).
    unfold weather_block. left. rewrite !append_assoc. reflexivity. }
  split.
  { apply (contains_captured "" _ Str.newline).
    unfold weather_block. right. left. reflexivity. }
  split.
  { apply (contains_captured "" _ Str.newline).
    unfold weather_block. do 2 right. left. reflexivity. }
  split.
  { apply (contains_captured "" _ Str.newline).
    unfold weather_block. do 3 right. left. reflexivity. }
  split.
  { apply (contains_captured "" _ Str.newline).
    unfold weather_block. do 4 right. left. reflexivity. }
  split.
  { intros t Ht. split; [ | apply strftime_shape ].
    apply (contains_captured "" _ Str.newline).
    unfold weather_block. rewrite Ht. do 5 right. left. reflexivity. }
  unfold weather_block. destruct (timestamp w) as [t | ]; split.
  - intros _. discriminate.
  - intros _. eexists. split; [ do 5 right; left; reflexivity | ].
    simpl. reflexivity.
  - intros (chunk & Hin & Hp). exfalso.
    destruct Hin as [Hc | [Hc | [Hc | [Hc | [Hc | []]]]]]; subst chunk;
      simpl in Hp; discriminate Hp.
  - intros Hn. exfalso. apply Hn. reflexivity.
Qed.

(** C7. For a forecast that is not empty, [display_forecast] writes a
    header that names the city of the first record, and then, for each
    record in order, a rule of 40 dashes followed by the block
    [display_weather] writes for that record: the blocks are separated by
    the rule. *)
Theorem display_forecast_output (st : state) (first : ref) (rest : list ref)
    (w : WeatherData) :
  nth_error (heap st) first = Some w ->
  (forall x, In x rest -> nth_error (heap st) x <> None) ->
  fst (display_forecast (first :: rest) st) = Ok tt
  /\ output_of (display_forecast (first :: rest)) st
     = ((Str.newline +++ "5-Day Forecast for " +++ Py.str (city_name w) +++ ":")
        +++ Str.newline)
       :: List.concat
            (map (fun x => dash_rule :: output_of (display_weather x) st)
               (first :: rest))
  /\ dash_rule = "----------------------------------------" +++ Str.newline
  /\ String.length "----------------------------------------" = 40%nat.
Proof.
  intros Hw Hrest.
  assert (Hv : forall x, In x (first :: rest) -> nth_error (heap st) x <> None).
  { intros x [Hx | Hx]; [ subst x; congruence | apply Hrest; exact Hx ]. }
  assert (Heq : display_forecast (first :: rest) st
                = (Ok tt,
                   wrote_all st
                     (((Str.newline +++ "5-Day Forecast for "
                        +++ Py.str (city_name w) +++ ":") +++ Str.newline)
                      :: List.concat
                           (map (fun x => dash_rule :: block_at st x)
                              (first :: rest))))).
  { unfold display_forecast, attr, bind at 1 2 3, lift, deref.
    rewrite Hw. unfold ret at 1, bind at 1, print at 1, write at 1.
    match goal with
    | |- display_each _ ?s = _ => rewrite (display_each_eq (first :: rest) s Hv)
    end.
    f_equal. unfold wrote_all, wrote, block_at.
    cbn [heap service stdout requests]. rewrite <- app_assoc. reflexivity. }
  split; [ rewrite Heq; reflexivity | ].
  split; [ | split; reflexivity ].
  rewrite (output_of_wrote_all _ _ _ _ Heq). f_equal. f_equal.
  apply map_ext_in. intros x Hx. f_equal. apply block_at_output. apply Hv. exact Hx.
Qed.

End Facts.

(** * Witnesses

    Each statement above that has a hypothesis is applied here to the
    sample data, with its hypotheses discharged by evaluation. *)

Lemma stored_temperature_witness :
  exists response data k w,
    sample_net (requests sample_state)
      (weather_url (service sample_state) "London") = Ok response
    /\ json response = Ok data
    /\ temp_of data = Ok k
    /\ nth_error
         (heap (snd (fetch_current_weather sample_net "London" sample_state))) 0
       = Some w
    /\ rounded_celsius k = Ok (temperature w).
Proof.
  apply (proj1 (stored_temperature sample_net) "London" sample_state).
  vm_compute. reflexivity.
Defined.

Lemma fetch_current_weather_not_found_witness :
  fetch_current_weather sample_net "Atlantis" sample_state
  = (Ok None, logged sample_state (current_of "Atlantis")).
Proof.
  apply (fetch_current_weather_not_found sample_net "Atlantis" sample_state
           (not_found_response (current_of "Atlantis")));
    reflexivity.
Defined.

Lemma fetch_current_weather_failure_witness :
  fetch_current_weather sample_net "Paris" sample_state
  = (Raise (mk_exn WeatherAPIError
              (failure_message "weather"
                 (Ok (server_error_response (current_of "Paris"))))),
     logged sample_state (current_of "Paris"))
  /\ fetch_current_weather sample_net "Berlin" sample_state
     = (Raise (mk_exn WeatherAPIError
                 "Error fetching weather data: Connection refused"),
        logged sample_state (current_of "Berlin")).
Proof.
  split.
  - apply (fetch_current_weather_failure sample_net "Paris" sample_state).
    simpl. unfold error_status. simpl. lia.
  - apply (fetch_current_weather_failure sample_net "Berlin" sample_state).
    reflexivity.
Defined.

Lemma fetch_forecast_errors_witness :
  fetch_forecast sample_net "Atlantis" sample_state
  = (Ok [], logged sample_state (forecast_of "Atlantis"))
  /\ fetch_forecast sample_net "Paris" sample_state
     = (Raise (mk_exn WeatherAPIError
                 (failure_message "forecast"
                    (Ok (server_error_response (forecast_of "Paris"))))),
        logged sample_state (forecast_of "Paris")).
Proof.
  split.
  - apply (proj1 (fetch_forecast_errors sample_net "Atlantis" sample_state)
             (not_found_response (forecast_of "Atlantis")));
      reflexivity.
  - apply (proj2 (fetch_forecast_errors sample_net "Paris" sample_state)).
    simpl. unfold error_status. simpl. lia.
Defined.

Lemma fetch_forecast_records_witness :
  exists refs st',
    fetch_forecast sample_net "London" sample_state = (Ok refs, st')
    /\ List.length refs = List.length london_entries
    /\ NoDup refs
    /\ forall i item,
        nth_error london_entries i = Some item ->
        exists r w,
          nth_error refs i = Some r
          /\ nth_error (heap st') r = Some w
          /\ forecast_fields london_forecast item = Ok w
          /\ city_name w = PStr "London".
Proof.
  apply (fetch_forecast_records sample_net "London" sample_state
           (ok_response (forecast_of "London") london_forecast) london_forecast
           (PStr "London") london_entries).
  - reflexivity.
  - unfold error_status. simpl. lia.
  - reflexivity.
  - reflexivity.
  - reflexivity.
  - repeat constructor;
      apply (readable_entry_of_fields _ 283.15 (PStr "clear sky") (PInt 80)
               (PFloat 5.0) 1635778800);
      reflexivity || lia.
Defined.

Lemma display_weather_output_witness :
  Str.contains "Weather for London:"
    (captured (output_of (display_weather 0%nat) test_state))
  /\ Str.contains ("Temperature: 10.0" +++ Str.degree +++ "C")
       (captured (output_of (display_weather 0%nat) test_state))
  /\ Str.contains "Condition: clear sky"
       (captured (output_of (display_weather 0%nat) test_state))
  /\ Str.contains "Humidity: 80%"
       (captured (output_of (display_weather 0%nat) test_state))
  /\ Str.contains "Wind Speed: 5.0 m/s"
       (captured (output_of (display_weather 0%nat) test_state))
  /\ Str.contains "Time: 2023-11-01 12:00:00 UTC"
       (captured (output_of (display_weather 0%nat) test_state))
  /\ timestamp_shape "2023-11-01 12:00:00".
Proof.
  destruct (display_weather_output test_state 0%nat test_record eq_refl)
    as (_ & H1 & H2 & H3 & H4 & H5 & H6 & _).
  destruct (H6 _ eq_refl) as [H7 H8].
  repeat split; try assumption.
  apply H8; [ unfold in_range | ]; simpl; lia.
Defined.

(** The shape as the specification words it fails below the year 1000:
    the record fetched from a body with [dt = -50000000000] has the
    timestamp 385-07-25 07:06:40, a date and a time of day, and its time
    line reads ["Time: 385-07-25 07:06:40 UTC"], with a year of three
    digits. *)
Lemma time_line_shape_fails :
  ~ always_in_shape
  /\ fetch_current_weather early_net "Rome" sample_state
     = (Ok (Some 0%nat), stored (logged sample_state (current_of "Rome")) [early_record])
  /\ in_range early_time
  /\ output_of (display_weather 0%nat)
       (snd (fetch_current_weather early_net "Rome" sample_state))
     = [(Str.newline +++ "Weather for Rome:") +++ Str.newline;
        ("Temperature: 10.0" +++ Str.degree +++ "C") +++ Str.newline;
        "Condition: clear sky" +++ Str.newline;
        "Humidity: 80%" +++ Str.newline;
        "Wind Speed: 5.0 m/s" +++ Str.newline;
        "Time: 385-07-25 07:06:40 UTC" +++ Str.newline]
  /\ ~ timestamp_shape "385-07-25 07:06:40".
Proof.
  assert (Hr : in_range early_time).
  { unfold in_range, early_time. simpl. lia. }
  assert (Hn : ~ timestamp_shape "385-07-25 07:06:40").
  { intros H. apply timestamp_shape_length in H. discriminate H. }
  split; [ | split; [ | split; [ | split ] ] ].
  - intros H. apply Hn. exact (H early_time Hr).
  - vm_compute. reflexivity.
  - exact Hr.
  - vm_compute. reflexivity.
  - exact Hn.
Qed.

Lemma display_forecast_output_witness :
  output_of (display_forecast [0; 1]%nat) test_state
  = ((Str.newline +++ "5-Day Forecast for London:") +++ Str.newline)
    :: List.concat
         (map (fun x => dash_rule :: output_of (display_weather x) test_state)
            [0; 1]%nat).
Proof.
  refine (proj1 (proj2 (display_forecast_output test_state 0%nat [1%nat] test_record
                          eq_refl _))).
  intros x [Hx | []]. subst x. discriminate.
Defined.




Lemma returned_records_have_timestamp_witness :
  exists w t,
    nth_error
      (heap (snd (fetch_current_weather sample_net "London" sample_state))) 0%nat
    = Some w
    /\ timestamp w = Some t
    /\ in_range t.
Proof.
  apply (proj1 (returned_records_have_timestamp sample_net) "London" sample_state).
  vm_compute. reflexivity.
Defined.

(** * The scenarios of the specification *)

(** The response of the end-to-end scenario gives the record
    ("London", 10.0, "clear sky", 80, 5.0, 2021-11-01 15:00:00 UTC). *)
Example end_to_end :
  current_fields london_current
  = Ok (mk_WeatherData (PStr "London") (PFloat 10.0) (PStr "clear sky") (PInt 80)
          (PFloat 5.0) (Some (mk_datetime 2021 11 1 15 0 0 0))).
Proof. vm_compute. reflexivity. Qed.

(** What the client shows for that record. *)
Example end_to_end_display :
  output_of (display_weather 0%nat)
    (snd (fetch_current_weather sample_net "London" sample_state))
  = [Str.newline +++ "Weather for London:" +++ Str.newline;
     "Temperature: 10.0" +++ Str.degree +++ "C" +++ Str.newline;
     "Condition: clear sky" +++ Str.newline;
     "Humidity: 80%" +++ Str.newline;
     "Wind Speed: 5.0 m/s" +++ Str.newline;
     "Time: 2021-11-01 15:00:00 UTC" +++ Str.newline].
Proof. vm_compute. reflexivity. Qed.

(** The batch ["London, , Paris"] when London is not found: London is
    reported, the empty entry sends no request, and Paris is fetched. *)
Example batch_requests :
  requests (snd (turn batch_net (Ok "London, , Paris") sample_state))
  = [current_of "London"; forecast_of "London";
     current_of "Paris"; forecast_of "Paris"].
Proof. vm_compute. reflexivity. Qed.

(** At the end of the input every read raises [EOFError]: the loop
    reports it and goes on. *)
Example end_of_input_goes_on (st : state) :
  turn batch_net (Raise (mk_exn EOFError "EOF when reading a line")) st
  = (Ok true,
     wrote (wrote st "Cities: ")
       ("Unexpected error: EOF when reading a line" +++ Str.newline)).
Proof. reflexivity. Qed.

(** A keyboard interrupt at the prompt ends the loop. *)
Example interrupt_ends_loop (st : state) :
  fst (turn batch_net (Raise (mk_exn KeyboardInterrupt "")) st) = Ok false.
Proof. reflexivity. Qed.

(** An empty forecast makes [display_forecast] raise [IndexError]. *)
Example display_forecast_empty (st : state) :
  display_forecast [] st = (Raise (mk_exn IndexError "list index out of range"), st).
Proof. reflexivity. Qed.

(** A timestamp in the year 2147483648: the year still fits the [tm_year]
    of the C library, and wraps around in the message; from the year
    2147485548 on the C library gives up. *)
Example year_wraps_in_message :
  Datetime.fromtimestamp (PInt 67767976246665600)
  = Raise (mk_exn ValueError "year -2147483648 is out of range")
  /\ Datetime.fromtimestamp (PInt 67768036204809600)
     = Raise (mk_exn OSError "[Errno 75] Value too large for defined data type").
Proof. split; vm_compute; reflexivity. Qed.

(** When the request itself raises an [HTTPError], no response is bound
    and the handler fails on the unbound variable. *)
Example unbound_response (st : state) :
  fetch_current_weather (fun _ _ => Raise (mk_exn HTTPError "error")) "London" st
  = (Raise (mk_exn UnboundLocalError
              "cannot access local variable 'response' where it is not associated with a value"),
     logged st (weather_url (service st) "London")).
Proof. reflexivity. Qed.

(** * Further properties

    Properties of the same code that the statements above do not cover:
    the success path of [fetch_current_weather], what the fetch operations
    do with a body they cannot read, what a turn of the loop does with the
    errors it meets, and what the client sends. *)

Section Further.

Variable net : list string -> string -> result Response.

(** ** The record of the current weather *)

Ltac chain_ok H :=
  repeat match type of H with
    | rbind ?r _ = Ok _ =>
        let x := fresh "x" in
        let E := fresh "E" in
        destruct r as [x | ] eqn:E; simpl in H; [ | discriminate H ]
    end.

Lemma readable_current_fields (data name : pyval) :
  Py.getitem data (Key "name") = Ok name ->
  readable_entry data ->
  exists w, current_fields data = Ok w.
Proof.
  unfold readable_entry, temp_of, description_of, humidity_of, speed_of.
  intros Hc (temp & celsius & description & hum & speed & dt & time
             & H1 & H2 & H3 & H4 & H5 & H6 & H7).
  chain_ok H1. chain_ok H3. chain_ok H4. chain_ok H5.
  repeat match goal with
    | E : Ok _ = Ok _ |- _ => inversion E; clear E; subst
    end.
  unfold current_fields, _kelvin_to_celsius.
  repeat (match goal with
          | E : ?l = Ok _ |- context [?l] => rewrite E
          end; simpl).
  eexists. reflexivity.
Qed.

(** X1. For a response without an error status (200 or any status
    outside 400..599) whose body has a [name] and the fields of a readable
    entry, [fetch_current_weather] returns a reference to one new record,
    allocated at the end of the heap; the record has the [name] of the
    body as its city, and [weather[0].description], [main.humidity] and
    [wind.speed] as they stand in the body. *)
Theorem fetch_current_weather_record (city : string) (st : state)
    (response : Response) (data name : pyval) :
  net (requests st) (weather_url (service st) city) = Ok response ->
  ~ error_status response ->
  json response = Ok data ->
  Py.getitem data (Key "name") = Ok name ->
  readable_entry data ->
  exists w,
    fetch_current_weather net city st
    = (Ok (Some (List.length (heap st))),
       stored (logged st (weather_url (service st) city)) [w])
    /\ current_fields data = Ok w
    /\ city_name w = name
    /\ description_of data = Ok (condition w)
    /\ humidity_of data = Ok (humidity w)
    /\ speed_of data = Ok (wind_speed w).
Proof.
  intros Hn Hs Hj Hname Hr.
  destruct (readable_current_fields _ _ Hname Hr) as [w Hw].
  exists w. rewrite fetch_current_weather_eq. cbv zeta. rewrite Hn.
  apply raise_for_status_ok in Hs. rewrite Hs, Hj, Hw.
  destruct (current_fields_inv _ _ Hw)
    as (k & t & Hname' & _ & _ & Hd & Hh & Hsp & _ & _).
  repeat split; try assumption. congruence.
Qed.

(** ** One request per fetch *)

Lemma handler_state {A : Type} (what : string) (not_found : A)
    (bound : option Response) (e : exn) (st : state) :
  snd (handler what not_found bound e st) = st.
Proof.
  unfold handler, raise, ret. destruct (is_HTTPError e).
  - destruct bound as [response | ]; [ | reflexivity ].
    destruct (status_code response =? 404); reflexivity.
  - destruct (is_RequestException e); reflexivity.
Qed.

Lemma forecast_loop_state (data : pyval) (items : list pyval)
    (acc : list ref) (st : state) :
  exists ws, snd (forecast_loop data items acc st) = stored st ws.
Proof.
  revert acc st. induction items as [ | item rest IH]; intros acc st; simpl.
  - exists []. unfold stored. rewrite app_nil_r. destruct st; reflexivity.
  - unfold bind, lift, new_WeatherData.
    destruct (forecast_fields data item) as [w | e]; simpl.
    + destruct (IH (acc ++ [List.length (heap st)]) (stored st [w])) as [ws Hws].
      exists (w :: ws). rewrite stored_stored in Hws. exact Hws.
    + exists []. unfold stored. rewrite app_nil_r. destruct st; reflexivity.
Qed.

(** The state a fetch leaves: the request is logged, and records are
    allocated; nothing else. *)
Lemma fetch_current_weather_state (city : string) (st : state) :
  exists ws,
    snd (fetch_current_weather net city st)
    = stored (logged st (weather_url (service st) city)) ws.
Proof.
  rewrite fetch_current_weather_eq. cbv zeta.
  assert (H0 : forall s : state, exists ws, s = stored s ws).
  { intros s. exists []. unfold stored. rewrite app_nil_r. destruct s; reflexivity. }
  destruct (net (requests st) (weather_url (service st) city)) as [response | e];
    [ | rewrite handler_state; apply H0 ].
  destruct (raise_for_status response); [ | rewrite handler_state; apply H0 ].
  destruct (json response) as [data | e]; [ | rewrite handler_state; apply H0 ].
  destruct (current_fields data) as [w | e]; [ | rewrite handler_state; apply H0 ].
  exists [w]. reflexivity.
Qed.

Lemma fetch_forecast_state (city : string) (st : state) :
  exists ws,
    snd (fetch_forecast net city st)
    = stored (logged st (forecast_url (service st) city)) ws.
Proof.
  rewrite fetch_forecast_eq. cbv zeta.
  assert (H0 : forall s : state, exists ws, s = stored s ws).
  { intros s. exists []. unfold stored. rewrite app_nil_r. destruct s; reflexivity. }
  destruct (net (requests st) (forecast_url (service st) city)) as [response | e];
    [ | rewrite handler_state; apply H0 ].
  destruct (raise_for_status response); [ | rewrite handler_state; apply H0 ].
  destruct (json response) as [data | e]; [ | rewrite handler_state; apply H0 ].
  destruct (entries_of data) as [items | e]; [ | rewrite handler_state; apply H0 ].
  destruct (forecast_loop_state data items []
              (logged st (forecast_url (service st) city))) as [ws Hws].
  destruct (forecast_loop data items [] (logged st (forecast_url (service st) city)))
    as [[refs | e] st2]; simpl in Hws; subst st2.
  - exists ws. reflexivity.
  - rewrite handler_state. exists ws. reflexivity.
Qed.

(** X2. Whatever the answer is, a record, "not found" or an error, each
    fetch operation sends exactly one request, to the URL built from the
    base URL, the city as it was given and the key; it writes nothing to
    standard output. *)
Theorem fetch_sends_one_request (city : string) (st : state) :
  requests (snd (fetch_current_weather net city st))
  = requests st
    ++ [base_url (service st) +++ "/weather?q=" +++ city +++ "&appid="
        +++ api_key (service st)]
  /\ requests (snd (fetch_forecast net city st))
     = requests st
       ++ [base_url (service st) +++ "/forecast?q=" +++ city +++ "&appid="
           +++ api_key (service st)]
  /\ stdout (snd (fetch_current_weather net city st)) = stdout st
  /\ stdout (snd (fetch_forecast net city st)) = stdout st.
Proof.
  destruct (fetch_current_weather_state city st) as [ws1 H1].
  destruct (fetch_forecast_state city st) as [ws2 H2].
  rewrite H1, H2. repeat split; reflexivity.
Qed.

(** ** Bodies that cannot be read *)

Ltac by_class :=
  let e := fresh "e" in
  let H := fresh "H" in
  intros e H;
  repeat match type of H with
    | context [match ?x with _ => _ end] => destruct x
    end;
  try discriminate H; inversion H; reflexivity.

Lemma raises_only_rbind {A B : Type} (P : exn -> bool) (r : result A)
    (k : A -> result B) :
  raises_only P r -> (forall a, raises_only P (k a)) ->
  raises_only P (rbind r k).
Proof.
  intros Hr Hk e. destruct r as [a | e']; simpl.
  - apply Hk.
  - intros H. apply Hr. inversion H. reflexivity.
Qed.

Lemma raises_only_Ok {A : Type} (P : exn -> bool) (a : A) : raises_only P (Ok a).
Proof. intros e H. discriminate H. Qed.

Lemma getitem_data_error (v : pyval) (k : subscript) :
  raises_only is_data_error (Py.getitem v k).
Proof. unfold Py.getitem. destruct v, k; by_class. Qed.

Lemma iter_data_error (v : pyval) : raises_only is_data_error (Py.iter v).
Proof. unfold Py.iter. destruct v; by_class. Qed.

Lemma float_of_int_data_error (z : Z) :
  raises_only is_data_error (Py.float_of_int z).
Proof. unfold Py.float_of_int. by_class. Qed.

Lemma sub_float_data_error (v : pyval) (c : float) :
  raises_only is_data_error (Py.sub_float v c).
Proof.
  unfold Py.sub_float. destruct v;
    try (apply raises_only_rbind;
         [ apply float_of_int_data_error | intros; apply raises_only_Ok ]);
    by_class.
Qed.

Lemma timeval_data_error (v : pyval) :
  raises_only is_data_error (Datetime.timeval v).
Proof. unfold Datetime.timeval, Datetime.out_of_time_t. destruct v; by_class. Qed.

Lemma fromtimestamp_data_error (v : pyval) :
  raises_only is_data_error (Datetime.fromtimestamp v).
Proof.
  unfold Datetime.fromtimestamp. apply raises_only_rbind.
  - apply timeval_data_error.
  - intros [sec us]. by_class.
Qed.

Ltac data_errors :=
  repeat first
    [ apply raises_only_Ok
    | apply getitem_data_error
    | apply iter_data_error
    | apply sub_float_data_error
    | apply fromtimestamp_data_error
    | apply raises_only_rbind; [ | intros ? ] ].

Lemma current_fields_data_error (data : pyval) :
  raises_only is_data_error (current_fields data).
Proof. unfold current_fields, _kelvin_to_celsius. data_errors. Qed.

Lemma forecast_fields_data_error (data item : pyval) :
  raises_only is_data_error (forecast_fields data item).
Proof. unfold forecast_fields, _kelvin_to_celsius. data_errors. Qed.

Lemma entries_of_data_error (data : pyval) :
  raises_only is_data_error (entries_of data).
Proof. unfold entries_of. data_errors. Qed.

(** No [except] clause of the fetch operations takes a data error. *)
Lemma handler_data_error {A : Type} (what : string) (not_found : A)
    (bound : option Response) (e : exn) (st : state) :
  is_data_error e = true ->
  handler what not_found bound e st = (Raise e, st).
Proof.
  destruct e as [c m]. unfold is_data_error, handler. simpl.
  destruct c; intros H; try discriminate H; reflexivity.
Qed.

Lemma data_error_not_WeatherAPIError (e : exn) :
  is_data_error e = true -> is_WeatherAPIError e = false.
Proof.
  destruct e as [c m]. unfold is_data_error. simpl.
  destruct c; intros H; try discriminate H; reflexivity.
Qed.

(** X3. When the response has no error status and its body decodes, but
    the fields of the record cannot be read from it, [fetch_current_weather]
    raises the error of the read as it is: a [KeyError], an [IndexError], a
    [TypeError] or an error of the conversions, never a [WeatherAPIError];
    no record is allocated.  A body without [name] gives [KeyError] with
    the message ['name']. *)
Theorem unreadable_body_is_not_wrapped (city : string) (st : state)
    (response : Response) (data : pyval) (e : exn) :
  net (requests st) (weather_url (service st) city) = Ok response ->
  ~ error_status response ->
  json response = Ok data ->
  current_fields data = Raise e ->
  fetch_current_weather net city st
  = (Raise e, logged st (weather_url (service st) city))
  /\ is_data_error e = true
  /\ is_WeatherAPIError e = false
  /\ (forall d, data = PDict d -> Py.lookup "name" d = None ->
                e = mk_exn KeyError "'name'").
Proof.
  intros Hn Hs Hj Hf.
  pose proof (current_fields_data_error data e Hf) as He.
  split; [ | split; [ exact He | split ] ].
  - rewrite fetch_current_weather_eq. cbv zeta. rewrite Hn.
    apply raise_for_status_ok in Hs. rewrite Hs, Hj, Hf.
    apply handler_data_error. exact He.
  - apply data_error_not_WeatherAPIError. exact He.
  - intros d Hd Hl. subst data. unfold current_fields in Hf. simpl in Hf.
    rewrite Hl in Hf. simpl in Hf. inversion Hf. reflexivity.
Qed.

Lemma forecast_loop_raise (data : pyval) (good : list pyval) (bad : pyval)
    (rest : list pyval) (e : exn) (acc : list ref) (st : state) :
  Forall (fun item => exists w, forecast_fields data item = Ok w) good ->
  forecast_fields data bad = Raise e ->
  fst (forecast_loop data (good ++ bad :: rest) acc st) = Raise e.
Proof.
  intros Hgood Hbad. revert acc st.
  induction Hgood as [ | item good [w Hw] _ IH]; intros acc st; simpl.
  - unfold bind, lift. rewrite Hbad. reflexivity.
  - unfold bind, lift, new_WeatherData. rewrite Hw. simpl. apply IH.
Qed.

(** X4. A forecast is all or nothing: when the entries before [bad] can
    be read and [bad] cannot, [fetch_forecast] raises the error of reading
    [bad], unwrapped, and returns no list, not even the records of the
    entries before it. *)
Theorem fetch_forecast_unreadable_entry (city : string) (st : state)
    (response : Response) (data : pyval) (good : list pyval) (bad : pyval)
    (rest : list pyval) (e : exn) :
  net (requests st) (forecast_url (service st) city) = Ok response ->
  ~ error_status response ->
  json response = Ok data ->
  entries_of data = Ok (good ++ bad :: rest) ->
  Forall (fun item => exists w, forecast_fields data item = Ok w) good ->
  forecast_fields data bad = Raise e ->
  fst (fetch_forecast net city st) = Raise e
  /\ is_data_error e = true
  /\ is_WeatherAPIError e = false.
Proof.
  intros Hn Hs Hj He Hgood Hbad.
  pose proof (forecast_fields_data_error data bad e Hbad) as Hd.
  split; [ | split; [ exact Hd | apply data_error_not_WeatherAPIError; exact Hd ] ].
  rewrite fetch_forecast_eq. cbv zeta. rewrite Hn.
  apply raise_for_status_ok in Hs. rewrite Hs, Hj, He.
  pose proof (forecast_loop_raise data good bad rest e []
                (logged st (forecast_url (service st) city)) Hgood Hbad) as Hl.
  destruct (forecast_loop data (good ++ bad :: rest) []
              (logged st (forecast_url (service st) city))) as [[refs | e'] st2];
    simpl in Hl; [ discriminate Hl | ].
  inversion Hl; subst e'. rewrite handler_data_error by exact Hd. reflexivity.
Qed.

(** X5. [fetch_forecast] returns the empty list in two cases and no
    other: the response has status 404, or it has no error status and its
    body decodes to one whose [list] has no entry.  The caller cannot tell
    "not found" from "no entries". *)
Theorem empty_forecast_cases (city : string) (st : state) :
  fst (fetch_forecast net city st) = Ok []
  <-> exists response,
        net (requests st) (forecast_url (service st) city) = Ok response
        /\ (status_code response = 404
            \/ (~ error_status response
                /\ exists data,
                     json response = Ok data /\ entries_of data = Ok [])).
Proof.
  split.
  - intros H.
    destruct (fetch_forecast net city st) as [r st'] eqn:Hf. simpl in H. subst r.
    apply fetch_forecast_inv in Hf.
    destruct Hf as (response & Hn & [[Hs _] | Hok]).
    + exists response. split; [ exact Hn | left; exact Hs ].
    + destruct Hok as (data & items & ws & Hs & Hj & He & _ & Hrefs & _).
      exists response. split; [ exact Hn | right ]. split; [ exact Hs | ].
      exists data. split; [ exact Hj | ].
      destruct items as [ | item items]; [ exact He | discriminate Hrefs ].
  - intros (response & Hn & [Hs | (Hs & data & Hj & He)]).
    + rewrite (fetch_forecast_404 net city st response Hn Hs). reflexivity.
    + rewrite (fetch_forecast_ok net city st response data [] [] Hn Hs Hj He eq_refl).
      reflexivity.
Qed.

(** ** What [process_city] displays is what it fetched *)

Lemma all_fields_length (data : pyval) (items : list pyval)
    (ws : list WeatherData) :
  all_fields data items = Ok ws -> List.length ws = List.length items.
Proof.
  revert ws. induction items as [ | item rest IH]; intros ws; simpl.
  - intros H; inversion H; reflexivity.
  - destruct (forecast_fields data item) as [w | e]; simpl; [ | discriminate ].
    destruct (all_fields data rest) as [ws' | e]; simpl; [ | discriminate ].
    intros H; inversion H; subst. simpl. rewrite (IH ws' eq_refl). reflexivity.
Qed.

Lemma display_forecast_eq (st : state) (first : ref) (rest : list ref)
    (w : WeatherData) :
  nth_error (heap st) first = Some w ->
  (forall x, In x rest -> nth_error (heap st) x <> None) ->
  display_forecast (first :: rest) st
  = (Ok tt,
     wrote_all st
       (((Str.newline +++ "5-Day Forecast for " +++ Py.str (city_name w) +++ ":")
         +++ Str.newline)
        :: List.concat (map (fun x => dash_rule :: block_at st x) (first :: rest)))).
Proof.
  intros Hw Hrest.
  assert (Hv : forall x, In x (first :: rest) -> nth_error (heap st) x <> None).
  { intros x [Hx | Hx]; [ subst x; congruence | apply Hrest; exact Hx ]. }
  unfold display_forecast, attr, bind at 1 2 3, lift, deref.
  rewrite Hw. unfold ret at 1, bind at 1, print at 1, write at 1.
  match goal with
  | |- display_each _ ?s = _ => rewrite (display_each_eq (first :: rest) s Hv)
  end.
  f_equal. unfold wrote_all, wrote, block_at.
  cbn [heap service stdout requests]. rewrite <- app_assoc. reflexivity.
Qed.




(** ** The errors a turn of the loop meets *)

Lemma handled_Exception (e : exn) : is_Exception e = true -> is_handled e = true.
Proof. unfold is_handled. intros H. rewrite H. reflexivity. Qed.

(** Every turn returns: no exception the network or the prompt raises
    gets out of the [try] statement, as long as a clause takes it. *)
Lemma turn_returns (typed : result string) (st : state) :
  handled_net net -> handled_input typed ->
  exists continue, fst (turn net typed st) = Ok continue.
Proof.
  intros Hnet Htyped.
  assert (S : sat (fun _ _ => True) (fun e => is_handled e = true)
                (turn_body net typed) (fun _ => True)).
  { apply sat_turn_body; auto using handled_Exception. }
  destruct (S st) as [_ HS]. unfold turn, bind, attempt.
  destruct (turn_body net typed st) as [[continue | e] st1]; simpl in *.
  - exists continue. reflexivity.
  - unfold is_handled in HS.
    destruct (is_WeatherAPIError e); [ exists true; reflexivity | ].
    destruct (is_KeyboardInterrupt e); [ exists false; reflexivity | ].
    destruct (is_Exception e); [ exists true; reflexivity | discriminate HS ].
Qed.

Lemma loop_returns (inputs : list (result string)) (st : state) :
  handled_net net -> Forall handled_input inputs ->
  exists s, fst (loop net inputs st) = Ok s.
Proof.
  intros Hnet H. revert st. induction H as [ | typed rest Ht _ IH]; intros st; simpl.
  - exists AwaitingInput. reflexivity.
  - unfold bind. destruct (turn_returns typed st Hnet Ht) as [continue Hc].
    destruct (turn net typed st) as [[b | e] st1]; simpl in Hc; [ | discriminate Hc ].
    destruct b; [ apply IH | exists Exited; reflexivity ].
Qed.

Lemma get_weather_for_cities_returns (inputs : list (result string)) (st : state) :
  handled_net net -> Forall handled_input inputs ->
  exists s, fst (get_weather_for_cities net inputs st) = Ok s.
Proof.
  intros Hnet H. unfold get_weather_for_cities, bind, print, write.
  apply loop_returns; assumption.
Qed.

(** X7. [get_weather_for_cities] raises nothing: whatever [Exception] or
    [KeyboardInterrupt] a request, the decoding of a body or a read at the
    prompt raises, a clause of the loop takes it; after any sequence of
    reads the loop has ended or awaits the next read. *)
Theorem loop_handles_every_exception (inputs : list (result string))
    (st : state) :
  handled_net net -> Forall handled_input inputs ->
  exists s, fst (get_weather_for_cities net inputs st) = Ok s.
Proof. apply get_weather_for_cities_returns. Qed.

(** X8. For a network and a prompt that raise nothing but what the loop
    handles, [main] ends with an exception exactly when the key that
    [os.getenv] returns is missing or empty; it is then its own
    [ValueError], raised before a client exists: nothing is printed and
    nothing is sent. *)
Theorem main_raises_only_without_key (key : option string)
    (inputs : list (result string)) :
  handled_net net -> Forall handled_input inputs ->
  (main_raises (main net key inputs) <-> key = None \/ key = Some "")
  /\ (key = None \/ key = Some "" ->
      main net key inputs
      = Raise (mk_exn ValueError
                 "Please set the WEATHER_API_KEY environment variable or include it in a .env file.")).
Proof.
  intros Hnet Hin. split; [ split | ].
  - destruct key as [[ | c k] | ]; simpl; auto.
    destruct (get_weather_for_cities_returns inputs
                (WeatherClient_init (String c k)) Hnet Hin) as [s Hs].
    destruct (get_weather_for_cities net inputs (WeatherClient_init (String c k)))
      as [[s' | e] st']; simpl in *; [ contradiction | discriminate Hs ].
  - intros [H | H]; subst key; exact I.
  - intros [H | H]; subst key; reflexivity.
Qed.

Lemma turn_unexpected (e : exn) (st : state) :
  is_Exception e = true -> is_WeatherAPIError e = false ->
  turn net (Raise e) st
  = (Ok true,
     wrote_all st ["Cities: "; ("Unexpected error: " +++ exn_str e) +++ Str.newline]).
Proof.
  intros He Hw. unfold turn, turn_body, input, bind, attempt, write, lift, print.
  simpl. rewrite Hw, (Exception_not_interrupt _ He), He. simpl.
  unfold wrote, wrote_all. simpl. rewrite <- app_assoc. reflexivity.
Qed.

Lemma wrote_all_wrote_all (st : state) (out out' : list string) :
  wrote_all (wrote_all st out) out' = wrote_all st (out ++ out').
Proof. unfold wrote_all. simpl. rewrite <- app_assoc. reflexivity. Qed.

(** X9. A read at the prompt that raises an [Exception], as [EOFError] at
    the end of the input, does not end the loop: it is reported as an
    unexpected error and the loop prompts again.  After any number of such
    reads in a row the loop still awaits input; it has written the prompt
    and the report once per read, and has sent no request. *)
Theorem end_of_input_does_not_end_loop (e : exn) (n : nat) (st : state) :
  is_Exception e = true -> is_WeatherAPIError e = false ->
  loop net (List.repeat (Raise e) n) st
  = (Ok AwaitingInput,
     wrote_all st
       (List.concat
          (List.repeat
             ["Cities: "; ("Unexpected error: " +++ exn_str e) +++ Str.newline] n))).
Proof.
  intros He Hw. revert st. induction n as [ | n IH]; intros st; simpl.
  - unfold ret. rewrite wrote_all_nil. reflexivity.
  - unfold bind. rewrite (turn_unexpected e st He Hw). rewrite IH.
    rewrite wrote_all_wrote_all. reflexivity.
Qed.

(** ** A request that fails in the middle of a line *)

Lemma fetch_current_weather_failed (city : string) (st : state) :
  failed (net (requests st) (weather_url (service st) city)) ->
  fetch_current_weather net city st
  = (Raise (mk_exn WeatherAPIError
              (failure_message "weather"
                 (net (requests st) (weather_url (service st) city)))),
     logged st (weather_url (service st) city)).
Proof.
  rewrite fetch_current_weather_eq. cbv zeta.
  destruct (net (requests st) (weather_url (service st) city)) as [response | e];
    simpl.
  - intros [He Hs]. rewrite (raise_for_status_raises _ He).
    apply handler_failed; assumption.
  - apply handler_network_failure.
Qed.

Lemma for_cities_failed (city : string) (rest : list string) (st : state) :
  city <> "" ->
  failed (net (requests st) (weather_url (service st) city)) ->
  for_cities net (city :: rest) st
  = (Raise (mk_exn WeatherAPIError
              (failure_message "weather"
                 (net (requests st) (weather_url (service st) city)))),
     logged
       (wrote st ((Str.newline +++ "Fetching weather for " +++ city +++ "...")
                  +++ Str.newline))
       (weather_url (service st) city)).
Proof.
  intros Hc Hf. simpl. apply String.eqb_neq in Hc. rewrite Hc.
  unfold bind at 1, process_city, bind at 1, print at 1, write at 1.
  unfold bind at 1.
  match goal with
  | |- context [fetch_current_weather net city ?s] =>
      rewrite (fetch_current_weather_failed city s Hf)
  end.
  reflexivity.
Qed.

Lemma turn_failed (line city : string) (rest : list string) (st : state) :
  is_quit line = false ->
  cities_of line = city :: rest ->
  city <> "" ->
  failed (net (requests st) (weather_url (service st) city)) ->
  turn net (Ok line) st
  = (Ok true,
     wrote_all (logged st (weather_url (service st) city))
       ["Cities: ";
        (Str.newline +++ "Fetching weather for " +++ city +++ "...") +++ Str.newline;
        ("Error: "
         +++ failure_message "weather"
               (net (requests st) (weather_url (service st) city)))
        +++ Str.newline]).
Proof.
  intros Hq Hcs Hc Hf. unfold turn, bind at 1, attempt.
  rewrite (turn_body_cities net _ _ Hq). fold (cities_of line). rewrite Hcs.
  unfold bind at 1.
  rewrite (for_cities_failed city rest (wrote st "Cities: ") Hc Hf).
  simpl. unfold print, write, bind, ret, wrote, logged, wrote_all. simpl.
  rewrite <- !app_assoc. reflexivity.
Qed.

(** X10. When the current-weather request of a city fails, with an HTTP
    error status other than 404 or with a network-level failure, the turn
    gives up the rest of the line: the forecast of that city and the cities
    after it on the line are not requested.  The error is reported on one
    line that starts with ["Error: "], and the loop goes on. *)
Theorem failure_abandons_rest_of_line (line city : string) (rest : list string)
    (st : state) :
  is_quit line = false ->
  cities_of line = city :: rest ->
  city <> "" ->
  failed (net (requests st) (weather_url (service st) city)) ->
  fst (turn net (Ok line) st) = Ok true
  /\ requests (snd (turn net (Ok line) st))
     = requests st ++ [weather_url (service st) city]
  /\ output_of (turn net (Ok line)) st
     = ["Cities: ";
        (Str.newline +++ "Fetching weather for " +++ city +++ "...") +++ Str.newline;
        ("Error: "
         +++ failure_message "weather"
               (net (requests st) (weather_url (service st) city)))
        +++ Str.newline]
  /\ heap (snd (turn net (Ok line) st)) = heap st.
Proof.
  intros Hq Hcs Hc Hf. pose proof (turn_failed line city rest st Hq Hcs Hc Hf) as H.
  rewrite H. split; [ reflexivity | split; [ reflexivity | split; [ | reflexivity ] ] ].
  unfold output_of. rewrite H. cbn [snd stdout wrote_all logged].
  rewrite skipn_app, skipn_all, Nat.sub_diag. reflexivity.
Qed.

Lemma contains_append (x s pre post : string) :
  Str.contains x s -> Str.contains x (pre +++ s +++ post).
Proof.
  intros (p & q & H). exists (pre +++ p), (q +++ post). subst s.
  rewrite !append_assoc. reflexivity.
Qed.

Lemma http_error_msg_url (response : Response) :
  error_status response ->
  exists pre, http_error_msg response = pre +++ url response.
Proof.
  unfold error_status, http_error_msg. intros H.
  destruct ((400 <=? status_code response) && (status_code response <? 500)) eqn:E1.
  - eexists. rewrite <- !append_assoc. reflexivity.
  - destruct ((500 <=? status_code response) && (status_code response <? 600)) eqn:E2.
    + eexists. rewrite <- !append_assoc. reflexivity.
    + exfalso. apply andb_false_iff in E1, E2. lia.
Qed.

(** X11. The report of an HTTP error shows the key: when the failed
    response carries the URL of the request, with its [appid] parameter,
    what the turn writes to standard output contains ["appid="] followed
    by the API key of the service. *)
Theorem error_report_shows_api_key (line city : string) (rest : list string)
    (st : state) (response : Response) :
  is_quit line = false ->
  cities_of line = city :: rest ->
  city <> "" ->
  net (requests st) (weather_url (service st) city) = Ok response ->
  error_status response ->
  status_code response <> 404 ->
  Str.contains ("appid=" +++ api_key (service st)) (url response) ->
  Str.contains ("appid=" +++ api_key (service st))
    (captured (output_of (turn net (Ok line)) st)).
Proof.
  intros Hq Hcs Hc Hn He Hs Hu.
  assert (Hf : failed (net (requests st) (weather_url (service st) city))).
  { rewrite Hn. split; assumption. }
  pose proof (turn_failed line city rest st Hq Hcs Hc Hf) as H.
  assert (Hout : output_of (turn net (Ok line)) st
                 = ["Cities: ";
                    (Str.newline +++ "Fetching weather for " +++ city +++ "...")
                    +++ Str.newline;
                    ("Error: "
                     +++ failure_message "weather"
                           (net (requests st) (weather_url (service st) city)))
                    +++ Str.newline]).
  { unfold output_of. rewrite H. cbn [snd stdout wrote_all logged].
    rewrite skipn_app, skipn_all, Nat.sub_diag. reflexivity. }
  rewrite Hout, Hn.
  change (failure_message "weather" (Ok response))
    with ("HTTP error occurred: " +++ http_error_msg response).
  destruct (http_error_msg_url response He) as [pre Hpre]. rewrite Hpre.
  destruct Hu as (p & q & Hu). rewrite Hu.
  apply (contains_captured
           ("Error: " +++ "HTTP error occurred: " +++ pre +++ p) _
           (q +++ Str.newline)).
  do 2 right. left. rewrite !append_assoc. reflexivity.
Qed.

(** ** How a line is read *)

Lemma lstrip_In (c : ascii) (s : string) :
  In c (list_ascii_of_string (Str.lstrip s)) -> In c (list_ascii_of_string s).
Proof.
  induction s as [ | a s IH]; simpl; [ tauto | ].
  destruct (Str.isspace a); simpl; [ right; apply IH; assumption | tauto ].
Qed.

Lemma rstrip_In (c : ascii) (s : string) :
  In c (list_ascii_of_string (Str.rstrip s)) -> In c (list_ascii_of_string s).
Proof.
  induction s as [ | a s IH]; simpl; [ tauto | ].
  destruct (Str.rstrip s) as [ | b r].
  - destruct (Str.isspace a); simpl; tauto.
  - simpl in *. intros [H | H]; [ left; exact H | right; apply IH; exact H ].
Qed.

Lemma strip_In (c : ascii) (s : string) :
  In c (list_ascii_of_string (Str.strip s)) -> In c (list_ascii_of_string s).
Proof. intros H. apply lstrip_In, rstrip_In. exact H. Qed.

(** A part of a split holds characters of the string, and none is the
    separator. *)
Lemma split_In (sep c : ascii) (s part : string) :
  In part (Str.split sep s) ->
  In c (list_ascii_of_string part) ->
  In c (list_ascii_of_string s) /\ c <> sep.
Proof.
  revert part. induction s as [ | a s IH]; intros part; simpl.
  - intros [H | []]. subst part. simpl. contradiction.
  - destruct (Ascii.eqb a sep) eqn:Ea.
    + intros [H | H] Hc.
      * subst part. simpl in Hc. contradiction.
      * destruct (IH part H Hc) as [H1 H2]. split; [ right; exact H1 | exact H2 ].
    + apply Ascii.eqb_neq in Ea.
      destruct (Str.split sep s) as [ | w ws] eqn:Es.
      * intros [H | []] Hc. subst part. simpl in Hc.
        destruct Hc as [Hc | []]. subst c. split; [ left; reflexivity | exact Ea ].
      * intros [H | H] Hc.
        -- subst part. simpl in Hc. destruct Hc as [Hc | Hc].
           ++ subst c. split; [ left; reflexivity | exact Ea ].
           ++ destruct (IH w (or_introl eq_refl) Hc) as [H1 H2].
              split; [ right; exact H1 | exact H2 ].
        -- destruct (IH part (or_intror H) Hc) as [H1 H2].
           split; [ right; exact H1 | exact H2 ].
Qed.

Lemma lstrip_spaces (s : string) :
  (forall c, In c (list_ascii_of_string s) -> Str.isspace c = true) ->
  Str.lstrip s = "".
Proof.
  induction s as [ | a s IH]; simpl; [ reflexivity | ].
  intros H. rewrite (H a (or_introl eq_refl)). apply IH.
  intros c Hc. apply H. right. exact Hc.
Qed.

Lemma for_cities_empty (cities : list string) (st : state) :
  Forall (fun city => city = "") cities ->
  for_cities net cities st = (Ok tt, st).
Proof.
  intros H. induction H as [ | city rest Hc _ IH]; simpl; [ reflexivity | ].
  subst city. unfold bind. simpl. exact IH.
Qed.

(** Neither white space nor a comma is a letter of ["quit"]. *)
Lemma lower_char_blank (c : ascii) :
  Str.isspace c = true \/ c = ","%char -> Str.lower_char c <> "q"%char.
Proof.
  intros [H | H].
  - destruct c as [[] [] [] [] [] [] [] []]; vm_compute in H; try discriminate H;
      vm_compute; discriminate.
  - subst c. vm_compute. discriminate.
Qed.

Lemma blank_not_quit (line : string) : blank line -> is_quit line = false.
Proof.
  intros Hb. unfold is_quit. apply String.eqb_neq.
  destruct (Str.strip line) as [ | c s] eqn:Es; simpl; [ discriminate | ].
  intros H. inversion H as [[Hc Hs]].
  apply (lower_char_blank c); [ | exact Hc ].
  apply Hb. apply strip_In. rewrite Es. left. reflexivity.
Qed.

Lemma blank_cities (line : string) :
  blank line -> Forall (fun city => city = "") (cities_of line).
Proof.
  intros Hb. unfold cities_of. apply Forall_forall. intros city Hin.
  apply in_map_iff in Hin. destruct Hin as (part & Hp & Hin). subst city.
  unfold Str.strip. rewrite lstrip_spaces; [ reflexivity | ].
  intros c Hc. destruct (split_In _ _ _ _ Hin Hc) as [H1 H2].
  destruct (Hb c (strip_In _ _ H1)) as [H | H]; [ exact H | contradiction ].
Qed.

(** X12. A line of nothing but white space and commas, the empty line
    among them, is skipped in silence: the turn writes the prompt and
    nothing else, sends no request, and the loop goes on. *)
Theorem blank_line_is_skipped (line : string) (st : state) :
  blank line ->
  turn net (Ok line) st = (Ok true, wrote st "Cities: ").
Proof.
  intros Hb. unfold turn, bind at 1, attempt.
  rewrite (turn_body_cities net _ _ (blank_not_quit _ Hb)).
  fold (cities_of line). unfold bind at 1.
  rewrite (for_cities_empty _ _ (blank_cities _ Hb)). reflexivity.
Qed.

Lemma lstrip_length (s : string) :
  (String.length (Str.lstrip s) <= String.length s)%nat.
Proof.
  induction s as [ | a s IH]; simpl; [ lia | ].
  destruct (Str.isspace a); simpl; lia.
Qed.

Lemma rstrip_length (s : string) :
  (String.length (Str.rstrip s) <= String.length s)%nat.
Proof.
  induction s as [ | a s IH]; simpl; [ lia | ].
  destruct (Str.rstrip s) as [ | b r].
  - destruct (Str.isspace a); simpl; lia.
  - simpl in *. lia.
Qed.

(** A string that [strip] leaves as it is has no white space at either
    end. *)
Lemma strip_fixed (s : string) :
  Str.strip s = s -> Str.lstrip s = s /\ Str.rstrip s = s.
Proof.
  unfold Str.strip. intros H.
  assert (Hl : Str.lstrip s = s).
  { destruct s as [ | a s]; [ reflexivity | ]. simpl in *.
    destruct (Str.isspace a); [ | reflexivity ]. exfalso.
    pose proof (rstrip_length (Str.lstrip s)) as H1.
    pose proof (lstrip_length s) as H2.
    rewrite H in H1. simpl in H1. lia. }
  split; [ exact Hl | ]. rewrite Hl in H. exact H.
Qed.

Lemma clean_head (city : string) :
  clean city -> exists a s, city = String a s /\ Str.isspace a = false.
Proof.
  intros (Hne & Hs & _). apply strip_fixed in Hs. destruct Hs as [Hl _].
  destruct city as [ | a s]; [ contradiction | ].
  exists a, s. split; [ reflexivity | ]. simpl in Hl.
  destruct (Str.isspace a); [ | reflexivity ]. exfalso.
  pose proof (lstrip_length s) as H. rewrite Hl in H. simpl in H. lia.
Qed.

Lemma rstrip_app (a b : string) :
  Str.rstrip b <> "" -> Str.rstrip (a +++ b) = a +++ Str.rstrip b.
Proof.
  intros Hb. induction a as [ | x a IH]; simpl; [ reflexivity | ].
  rewrite IH. destruct (a +++ Str.rstrip b) as [ | y r] eqn:E; [ | reflexivity ].
  exfalso. destruct a; simpl in E; [ contradiction | discriminate E ].
Qed.

Lemma join_head (c : string) (cs : list string) :
  exists tail, Str.join ", " (c :: cs) = c +++ tail.
Proof.
  destruct cs as [ | c2 cs].
  - exists "". simpl. induction c as [ | a c IH]; simpl; [ reflexivity | ].
    rewrite <- IH. reflexivity.
  - eexists. reflexivity.
Qed.

Lemma join_rstrip (c : string) (cs : list string) :
  Forall clean (c :: cs) ->
  Str.rstrip (Str.join ", " (c :: cs)) = Str.join ", " (c :: cs)
  /\ Str.join ", " (c :: cs) <> "".
Proof.
  revert c. induction cs as [ | c2 cs IH]; intros c H.
  - inversion H as [ | ? ? Hc _]; subst. simpl.
    destruct Hc as (Hne & Hs & _). apply strip_fixed in Hs.
    split; [ apply Hs | exact Hne ].
  - inversion H as [ | ? ? Hc Hrest]; subst.
    destruct (IH c2 Hrest) as [Hr Hne].
    change (Str.join ", " (c :: c2 :: cs))
      with (c +++ ", " +++ Str.join ", " (c2 :: cs)).
    rewrite <- append_assoc. split.
    + rewrite rstrip_app by (rewrite Hr; exact Hne). rewrite Hr. reflexivity.
    + destruct (clean_head c Hc) as (a & s & Hc' & _). subst c. discriminate.
Qed.

Lemma join_strip (c : string) (cs : list string) :
  Forall clean (c :: cs) ->
  Str.strip (Str.join ", " (c :: cs)) = Str.join ", " (c :: cs).
Proof.
  intros H. unfold Str.strip.
  assert (Hl : Str.lstrip (Str.join ", " (c :: cs)) = Str.join ", " (c :: cs)).
  { inversion H as [ | ? ? Hc _]; subst.
    destruct (clean_head c Hc) as (a & s & Hc' & Ha). subst c.
    destruct (join_head (String a s) cs) as [tail Ht]. rewrite Ht. simpl.
    rewrite Ha. reflexivity. }
  rewrite Hl. apply join_rstrip. exact H.
Qed.

Lemma split_no_sep (sep : ascii) (s : string) :
  ~ In sep (list_ascii_of_string s) -> Str.split sep s = [s].
Proof.
  induction s as [ | a s IH]; simpl; [ reflexivity | ].
  intros H. destruct (Ascii.eqb a sep) eqn:E.
  - apply Ascii.eqb_eq in E. exfalso. apply H. left. exact E.
  - rewrite IH; [ reflexivity | ]. intros Hin. apply H. right. exact Hin.
Qed.

Lemma split_app_sep (sep : ascii) (a b : string) :
  ~ In sep (list_ascii_of_string a) ->
  Str.split sep (a +++ String sep b) = a :: Str.split sep b.
Proof.
  induction a as [ | x a IH]; simpl.
  - intros _. rewrite Ascii.eqb_refl. reflexivity.
  - intros H. destruct (Ascii.eqb x sep) eqn:E.
    + apply Ascii.eqb_eq in E. exfalso. apply H. left. exact E.
    + rewrite IH; [ reflexivity | ]. intros Hin. apply H. right. exact Hin.
Qed.

Lemma split_join (c : string) (cs : list string) :
  Forall clean (c :: cs) ->
  Str.split ","%char (Str.join ", " (c :: cs)) = c :: map (String " "%char) cs.
Proof.
  revert c. induction cs as [ | c2 cs IH]; intros c H;
    inversion H as [ | ? ? Hc Hrest]; subst; destruct Hc as (_ & _ & Hcomma).
  - simpl. apply split_no_sep. exact Hcomma.
  - change (Str.join ", " (c :: c2 :: cs))
      with (c +++ String ","%char (String " "%char (Str.join ", " (c2 :: cs)))).
    rewrite (split_app_sep _ _ _ Hcomma).
    change (Str.split ","%char (String " "%char (Str.join ", " (c2 :: cs))))
      with (match Str.split ","%char (Str.join ", " (c2 :: cs)) with
            | [] => [String " "%char EmptyString]
            | w :: ws => String " "%char w :: ws
            end).
    rewrite (IH c2 Hrest). reflexivity.
Qed.

Lemma cities_of_join (cs : list string) :
  cs <> [] -> Forall clean cs -> cities_of (Str.join ", " cs) = cs.
Proof.
  intros Hne H. destruct cs as [ | c cs]; [ contradiction | ].
  unfold cities_of. rewrite (join_strip c cs H), (split_join c cs H).
  inversion H as [ | ? ? Hc Hrest]; subst. simpl.
  destruct Hc as (_ & Hs & _). rewrite Hs. f_equal.
  rewrite map_map. clear - Hrest.
  induction Hrest as [ | x rest (_ & Hx & _) _ IH]; simpl; [ reflexivity | ].
  rewrite IH. f_equal. exact Hx.
Qed.

(** X13. What the user types is what is processed: for names that are
    not empty, hold no comma and have no white space around them, the line
    that joins them with a comma and a space is read back as exactly these
    names, in the same order, and the turn goes through them one by
    one. *)
Theorem typed_names_are_processed (cs : list string) (st : state) :
  cs <> [] ->
  Forall clean cs ->
  is_quit (Str.join ", " cs) = false ->
  cities_of (Str.join ", " cs) = cs
  /\ turn_body net (Ok (Str.join ", " cs)) st
     = (for_cities net cs ;; ret true) (wrote st "Cities: ").
Proof.
  intros Hne H Hq. pose proof (cities_of_join cs Hne H) as Hcs.
  split; [ exact Hcs | ].
  rewrite (turn_body_cities net _ _ Hq). fold (cities_of (Str.join ", " cs)).
  rewrite Hcs. reflexivity.
Qed.

(** ** What is written for a city that is found *)

Lemma blocks_of_stored (ws : list WeatherData) (st : state) :
  map (block_at (stored st ws)) (seq (List.length (heap st)) (List.length ws))
  = map weather_block ws.
Proof.
  revert st. induction ws as [ | w ws IH]; intros st; [ reflexivity | ].
  cbn [List.length seq map]. f_equal.
  - unfold block_at.
    rewrite <- (Nat.add_0_r (List.length (heap st))).
    rewrite (nth_error_stored st (w :: ws) 0). reflexivity.
  - specialize (IH (stored st [w])). rewrite stored_stored in IH.
    cbn [app] in IH. unfold stored at 2 in IH. cbn [heap] in IH.
    rewrite length_app, Nat.add_1_r in IH. exact IH.
Qed.

Lemma concat_blocks (st : state) (refs : list ref) (ws : list WeatherData) :
  map (block_at st) refs = map weather_block ws ->
  List.concat (map (fun x => dash_rule :: block_at st x) refs)
  = List.concat (map (fun x => dash_rule :: weather_block x) ws).
Proof.
  revert ws. induction refs as [ | r refs IH]; intros [ | w ws]; simpl;
    try discriminate; [ reflexivity | ].
  intros H. inversion H as [[H1 H2]]. rewrite H1, (IH ws H2). reflexivity.
Qed.

(** The second half of [process_city], on the records a forecast has
    just allocated. *)
Lemma forecast_part (city : string) (ws : list WeatherData) (st : state) :
  match seq (List.length (heap st)) (List.length ws) with
  | _ :: _ => display_forecast (seq (List.length (heap st)) (List.length ws))
  | [] => print ("No forecast available for '" +++ city +++ "'.")
  end (stored st ws)
  = (Ok tt,
     wrote_all (stored st ws)
       match ws with
       | [] => [("No forecast available for '" +++ city +++ "'.") +++ Str.newline]
       | first :: _ =>
           ((Str.newline +++ "5-Day Forecast for " +++ Py.str (city_name first) +++ ":")
            +++ Str.newline)
           :: List.concat (map (fun x => dash_rule :: weather_block x) ws)
       end).
Proof.
  pose proof (blocks_of_stored ws st) as Hb.
  destruct ws as [ | w ws]; [ reflexivity | ].
  cbn [List.length seq] in *.
  rewrite (display_forecast_eq (stored st (w :: ws)) _ _ w).
  - do 3 f_equal. apply concat_blocks. exact Hb.
  - rewrite <- (Nat.add_0_r (List.length (heap st))).
    apply (nth_error_stored st (w :: ws) 0).
  - intros x Hx. apply in_seq in Hx. apply nth_error_Some.
    unfold stored. cbn [heap]. rewrite length_app. simpl. lia.
Qed.

(** X14. For a city that is found, [process_city] writes the line that
    announces the fetch, the block of the current record, the header of
    the forecast with the city of its first record, and then one rule and
    one block per forecast record, in the order of the entries of the
    response; when the forecast has no entry it writes the line that says
    so instead.  It sends the two requests, current weather first, and
    allocates the current record and then the forecast records. *)
Theorem process_city_report (city : string) (st : state)
    (response1 response2 : Response) (data1 data2 : pyval)
    (w : WeatherData) (items : list pyval) (ws : list WeatherData) :
  net (requests st) (weather_url (service st) city) = Ok response1 ->
  ~ error_status response1 ->
  json response1 = Ok data1 ->
  current_fields data1 = Ok w ->
  net (requests st ++ [weather_url (service st) city])
    (forecast_url (service st) city) = Ok response2 ->
  ~ error_status response2 ->
  json response2 = Ok data2 ->
  entries_of data2 = Ok items ->
  all_fields data2 items = Ok ws ->
  process_city net city st
  = (Ok tt,
     mk_state (service st) (heap st ++ w :: ws)
       (stdout st ++ city_report city w ws)
       (requests st ++ [weather_url (service st) city;
                        forecast_url (service st) city])).
Proof.
  intros Hn1 Hs1 Hj1 Hf1 Hn2 Hs2 Hj2 He2 Hf2.
  apply raise_for_status_ok in Hs1.
  unfold process_city, bind at 1, print at 1, write at 1. unfold bind at 1.
  rewrite fetch_current_weather_eq. cbv zeta.
  cbn [requests service wrote]. rewrite Hn1, Hs1, Hj1, Hf1.
  unfold bind at 1.
  match goal with
  | |- context [display_weather ?r ?s] =>
      rewrite (display_weather_eq s r w)
  end.
  2: { cbn [heap wrote].
       rewrite <- (Nat.add_0_r (List.length (heap st))).
       apply (nth_error_stored (logged (wrote st _) _) [w] 0). }
  unfold bind at 1.
  match goal with
  | |- context [fetch_forecast net city ?s] =>
      rewrite (fetch_forecast_ok net city s response2 data2 items ws)
  end; try assumption.
  rewrite <- (all_fields_length _ _ _ Hf2). cbv beta iota.
  match goal with
  | |- _ (stored ?s ws) = _ =>
      etransitivity; [ exact (forecast_part city ws s) | ]
  end.
  f_equal. unfold city_report, wrote_all, stored, logged, wrote.
  cbn [service heap stdout requests].
  rewrite <- !app_assoc. reflexivity.
Qed.

(** ** Where the requests go *)

Lemma rstrip_rstrip (s : string) : Str.rstrip (Str.rstrip s) = Str.rstrip s.
Proof.
  induction s as [ | a s IH]; simpl; [ reflexivity | ].
  destruct (Str.rstrip s) as [ | b r] eqn:E.
  - destruct (Str.isspace a) eqn:Ea; simpl; [ reflexivity | ].
    rewrite Ea. reflexivity.
  - simpl. simpl in IH. rewrite IH. reflexivity.
Qed.

Lemma lstrip_head (s : string) :
  Str.lstrip s = ""
  \/ exists a t, Str.lstrip s = String a t /\ Str.isspace a = false.
Proof.
  induction s as [ | a s IH]; simpl; [ left; reflexivity | ].
  destruct (Str.isspace a) eqn:Ea; [ exact IH | ].
  right. exists a, s. split; [ reflexivity | exact Ea ].
Qed.

(** [strip] is idempotent. *)
Lemma strip_strip (s : string) : Str.strip (Str.strip s) = Str.strip s.
Proof.
  unfold Str.strip. destruct (lstrip_head s) as [H | (a & t & H & Ha)]; rewrite H.
  - reflexivity.
  - assert (Hl : Str.lstrip (Str.rstrip (String a t)) = Str.rstrip (String a t)).
    { simpl. destruct (Str.rstrip t); [ rewrite Ha | ]; simpl; rewrite Ha;
        reflexivity. }
    rewrite Hl. apply rstrip_rstrip.
Qed.

(** The names of a line are clean, but for the empty ones. *)
Lemma cities_of_clean (line : string) :
  Forall (fun city => city <> "" -> clean city) (cities_of line).
Proof.
  unfold cities_of. apply Forall_forall. intros city Hin Hne.
  apply in_map_iff in Hin. destruct Hin as (part & Hp & Hin). subst city.
  split; [ exact Hne | split; [ apply strip_strip | ] ].
  intros Hc. apply strip_In in Hc.
  destruct (split_In _ _ _ _ Hin Hc) as [_ H]. apply H. reflexivity.
Qed.

Lemma sends_to_api_refl (st : state) : sends_to_api st st.
Proof.
  split; [ reflexivity | ]. exists []. split; [ | constructor ].
  symmetry. apply app_nil_r.
Qed.

Lemma sends_to_api_trans (st1 st2 st3 : state) :
  sends_to_api st1 st2 -> sends_to_api st2 st3 -> sends_to_api st1 st3.
Proof.
  intros (Hs1 & us1 & Hr1 & Hf1) (Hs2 & us2 & Hr2 & Hf2).
  split; [ congruence | ]. exists (us1 ++ us2). split.
  - rewrite Hr2, Hr1. symmetry. apply app_assoc.
  - apply Forall_app. split; [ exact Hf1 | ]. rewrite <- Hs1. exact Hf2.
Qed.

Lemma sends_to_api_wrote (st : state) (s : string) : sends_to_api st (wrote st s).
Proof. exact (sends_to_api_refl st). Qed.

Lemma api_only_state {A : Type} (c : M A) :
  (forall st, sends_to_api st (snd (c st))) -> api_only c.
Proof.
  intros H st. split; [ apply H | ]. destruct (fst (c st)); exact I.
Qed.

Lemma api_only_fetch_current_weather (city : string) :
  clean city -> api_only (fetch_current_weather net city).
Proof.
  intros Hc. apply api_only_state. intros st.
  destruct (fetch_current_weather_state city st) as [ws H]. rewrite H.
  split; [ reflexivity | ]. eexists. split; [ reflexivity | ].
  constructor; [ | constructor ]. exists city. split; [ exact Hc | left; reflexivity ].
Qed.

Lemma api_only_fetch_forecast (city : string) :
  clean city -> api_only (fetch_forecast net city).
Proof.
  intros Hc. apply api_only_state. intros st.
  destruct (fetch_forecast_state city st) as [ws H]. rewrite H.
  split; [ reflexivity | ]. eexists. split; [ reflexivity | ].
  constructor; [ | constructor ]. exists city. split; [ exact Hc | right; reflexivity ].
Qed.

Ltac api_bind :=
  unfold api_only;
  apply (sat_bind _ _ sends_to_api_trans _ _ (fun _ => True));
  [ | intros ? _ ].

Ltac api_print := unfold api_only; apply (sat_print _ _ sends_to_api_wrote).

Ltac api_ret := unfold api_only; apply (sat_ret _ _ sends_to_api_refl); exact I.

Lemma api_only_process_city (city : string) :
  clean city -> api_only (process_city net city).
Proof.
  intros Hc. unfold process_city.
  api_bind; [ api_print | ].
  api_bind; [ apply api_only_fetch_current_weather; exact Hc | ].
  api_bind.
  { match goal with
    | |- context [match ?x with _ => _ end] => destruct x
    end.
    - exact (sat_display_weather _ _ sends_to_api_refl sends_to_api_trans
               sends_to_api_wrote (fun _ _ => I) _).
    - api_print. }
  api_bind; [ apply api_only_fetch_forecast; exact Hc | ].
  match goal with
  | |- context [match ?x with _ => _ end] => destruct x
  end.
  - api_print.
  - exact (sat_display_forecast _ _ sends_to_api_refl sends_to_api_trans
             sends_to_api_wrote (fun _ _ => I) _).
Qed.

Lemma api_only_for_cities (cities : list string) :
  Forall (fun city => city <> "" -> clean city) cities ->
  api_only (for_cities net cities).
Proof.
  intros H. induction H as [ | city rest Hc _ IH]; simpl; [ api_ret | ].
  api_bind; [ | exact IH ].
  destruct (String.eqb city "") eqn:E; [ api_ret | ].
  apply api_only_process_city. apply Hc. apply String.eqb_neq. exact E.
Qed.

Lemma api_only_turn (typed : result string) : api_only (turn net typed).
Proof.
  unfold turn, api_only.
  apply (sat_bind _ _ sends_to_api_trans _ _
           (outcome (fun _ => True) (fun _ => True)));
    [ | intros ? _ ].
  { apply sat_attempt. unfold turn_body, input.
    apply (sat_bind _ _ sends_to_api_trans _ _ (fun _ => True)).
    - api_bind; [ apply (sat_write _ _ sends_to_api_wrote) | ].
      apply (sat_lift _ _ sends_to_api_refl). destruct typed; exact I.
    - intros line _.
      destruct (String.eqb (Str.lower (Str.strip line)) "quit").
      + api_bind; [ api_print | api_ret ].
      + api_bind; [ | api_ret ].
        apply (api_only_for_cities _ (cities_of_clean line)). }
  match goal with
  | |- context [match ?x with _ => _ end] => destruct x as [continue | e]
  end; [ api_ret | ].
  destruct (is_WeatherAPIError e); [ api_bind; [ api_print | api_ret ] | ].
  destruct (is_KeyboardInterrupt e); [ api_bind; [ api_print | api_ret ] | ].
  destruct (is_Exception e); [ api_bind; [ api_print | api_ret ] | ].
  apply (sat_raise _ _ sends_to_api_refl). exact I.
Qed.

Lemma api_only_loop (inputs : list (result string)) : api_only (loop net inputs).
Proof.
  induction inputs as [ | typed rest IH]; simpl; [ api_ret | ].
  api_bind; [ apply api_only_turn | ].
  match goal with
  | |- context [if ?b then _ else _] => destruct b
  end; [ exact IH | api_ret ].
Qed.

(** X15. Whatever is typed and whatever the network answers, the client
    sends requests to its API only: each URL requested during
    [get_weather_for_cities] is the current-weather URL or the forecast
    URL of the service, with its base URL and its key, for a name that is
    not empty, holds no comma and has no white space around it; and the
    service the client holds stays the same. *)
Theorem requests_go_to_the_api (inputs : list (result string)) (st : state) :
  service (snd (get_weather_for_cities net inputs st)) = service st
  /\ exists us,
       requests (snd (get_weather_for_cities net inputs st)) = requests st ++ us
       /\ Forall
            (fun u =>
               exists city,
                 clean city
                 /\ (u = weather_url (service st) city
                     \/ u = forecast_url (service st) city))
            us.
Proof.
  assert (H : api_only (get_weather_for_cities net inputs)).
  { unfold get_weather_for_cities. api_bind; [ api_print | apply api_only_loop ]. }
  exact (proj1 (H st)).
Qed.

(** ** Exceptions no [except] clause of the fetch operations expects *)

Lemma handler_unbound {A : Type} (what : string) (not_found : A) (e : exn)
    (st : state) :
  is_HTTPError e = true ->
  exists m, handler what not_found None e st = (Raise (mk_exn UnboundLocalError m), st).
Proof. intros H. unfold handler. rewrite H. eexists. reflexivity. Qed.

(** X16. When the request itself raises an [HTTPError], so that no
    response was received, the [except] clause for [HTTPError] reads the
    variable [response] before it is bound: each fetch operation raises
    [UnboundLocalError], not [WeatherAPIError], and returns nothing. *)
Theorem http_error_without_response (city : string) (st : state) (e : exn) :
  is_HTTPError e = true ->
  (net (requests st) (weather_url (service st) city) = Raise e ->
   exists m,
     fetch_current_weather net city st
     = (Raise (mk_exn UnboundLocalError m),
        logged st (weather_url (service st) city)))
  /\ (net (requests st) (forecast_url (service st) city) = Raise e ->
      exists m,
        fetch_forecast net city st
        = (Raise (mk_exn UnboundLocalError m),
           logged st (forecast_url (service st) city))).
Proof.
  intros He. split; intros Hn.
  - rewrite fetch_current_weather_eq. cbv zeta. rewrite Hn.
    apply handler_unbound. exact He.
  - rewrite fetch_forecast_eq. cbv zeta. rewrite Hn.
    apply handler_unbound. exact He.
Qed.

Lemma handler_interrupt {A : Type} (what : string) (not_found : A)
    (bound : option Response) (e : exn) (st : state) :
  is_KeyboardInterrupt e = true ->
  handler what not_found bound e st = (Raise e, st).
Proof.
  destruct e as [c m]. unfold is_KeyboardInterrupt, handler. simpl.
  destruct c; intros H; try discriminate H; reflexivity.
Qed.

(** X17. A keyboard interrupt while a request is under way ends the loop
    as one at the prompt does: no clause of the fetch takes it, the turn
    writes the line ["Exiting..."] after an empty line and the loop ends;
    the cities after it on the line are not requested. *)
Theorem interrupt_during_request_ends_loop (line city : string)
    (rest : list string) (st : state) (e : exn) :
  is_quit line = false ->
  cities_of line = city :: rest ->
  city <> "" ->
  net (requests st) (weather_url (service st) city) = Raise e ->
  is_KeyboardInterrupt e = true ->
  turn net (Ok line) st
  = (Ok false,
     wrote_all (logged st (weather_url (service st) city))
       ["Cities: ";
        (Str.newline +++ "Fetching weather for " +++ city +++ "...") +++ Str.newline;
        (Str.newline +++ "Exiting...") +++ Str.newline]).
Proof.
  intros Hq Hcs Hc Hn He. unfold turn, bind at 1, attempt.
  rewrite (turn_body_cities net _ _ Hq). fold (cities_of line). rewrite Hcs.
  unfold bind at 1. simpl for_cities. apply String.eqb_neq in Hc. rewrite Hc.
  unfold bind at 1, process_city, bind at 1, print at 1, write at 1.
  unfold bind at 1. rewrite fetch_current_weather_eq. cbv zeta.
  cbn [requests service wrote]. rewrite Hn.
  rewrite (handler_interrupt _ _ _ _ _ He).
  assert (Hw : is_WeatherAPIError e = false).
  { destruct e as [c m]. unfold is_KeyboardInterrupt in He. simpl in He.
    destruct c; try discriminate He. reflexivity. }
  cbv beta iota. rewrite Hw, He.
  unfold print, write, bind, ret, wrote, logged, wrote_all. simpl.
  rewrite <- !app_assoc. reflexivity.
Qed.

End Further.

(** * Witnesses of the further properties *)

Lemma fetch_current_weather_record_witness :
  exists w,
    fetch_current_weather sample_net "London" sample_state
    = (Ok (Some 0%nat), stored (logged sample_state (current_of "London")) [w])
    /\ current_fields london_current = Ok w
    /\ city_name w = PStr "London"
    /\ description_of london_current = Ok (condition w)
    /\ humidity_of london_current = Ok (humidity w)
    /\ speed_of london_current = Ok (wind_speed w).
Proof.
  apply (fetch_current_weather_record sample_net "London" sample_state
           (ok_response (current_of "London") london_current) london_current
           (PStr "London")).
  - reflexivity.
  - unfold error_status. simpl. lia.
  - reflexivity.
  - reflexivity.
  - apply (readable_entry_of_fields _ 283.15 (PStr "clear sky") (PInt 80)
             (PFloat 5.0) 1635778800);
      reflexivity || lia.
Defined.

Lemma unreadable_body_is_not_wrapped_witness :
  fetch_current_weather odd_net "London" sample_state
  = (Raise (mk_exn KeyError "'name'"), logged sample_state (current_of "London"))
  /\ is_WeatherAPIError (mk_exn KeyError "'name'") = false.
Proof.
  destruct (unreadable_body_is_not_wrapped odd_net "London" sample_state
              (ok_response (current_of "London") nameless_current)
              nameless_current (mk_exn KeyError "'name'"))
    as (H1 & _ & H2 & _).
  - reflexivity.
  - unfold error_status. simpl. lia.
  - reflexivity.
  - reflexivity.
  - split; assumption.
Defined.

Lemma fetch_forecast_unreadable_entry_witness :
  fst (fetch_forecast odd_net "London" sample_state)
  = Raise (mk_exn KeyError "'dt'")
  /\ is_data_error (mk_exn KeyError "'dt'") = true
  /\ is_WeatherAPIError (mk_exn KeyError "'dt'") = false.
Proof.
  apply (fetch_forecast_unreadable_entry odd_net "London" sample_state
           (ok_response (forecast_of "London") broken_forecast) broken_forecast
           [PDict london_entry] broken_entry [PDict london_entry]).
  - reflexivity.
  - unfold error_status. simpl. lia.
  - reflexivity.
  - reflexivity.
  - constructor; [ | constructor ]. exists london_record. vm_compute. reflexivity.
  - vm_compute. reflexivity.
Defined.


Lemma batch_net_handled : handled_net batch_net.
Proof.
  intros sent u. unfold batch_net. simpl.
  repeat match goal with
    | |- context [if ?b then _ else _] => destruct b
    end; simpl; auto.
Qed.

Lemma loop_handles_every_exception_witness :
  exists s,
    fst (get_weather_for_cities batch_net
           [Ok "London, , Paris"; Raise end_of_input;
            Raise (mk_exn KeyboardInterrupt ""); Ok "Rome"]
           sample_state)
    = Ok s.
Proof.
  apply (loop_handles_every_exception batch_net).
  - exact batch_net_handled.
  - constructor; [ exact I | ].
    constructor; [ reflexivity | ].
    constructor; [ reflexivity | ].
    constructor; [ exact I | constructor ].
Defined.

Lemma main_raises_only_without_key_witness :
  main batch_net (Some "") [Ok "quit"]
  = Raise (mk_exn ValueError
             "Please set the WEATHER_API_KEY environment variable or include it in a .env file.")
  /\ ~ main_raises (main batch_net (Some "KEY") [Ok "quit"]).
Proof.
  assert (Hin : Forall handled_input [Ok "quit"]).
  { constructor; [ exact I | constructor ]. }
  split.
  - apply (proj2 (main_raises_only_without_key batch_net (Some "") [Ok "quit"]
                    batch_net_handled Hin)).
    right. reflexivity.
  - intros H.
    apply (proj1 (main_raises_only_without_key batch_net (Some "KEY") [Ok "quit"]
                    batch_net_handled Hin)) in H.
    destruct H as [H | H]; discriminate H.
Defined.

Lemma end_of_input_does_not_end_loop_witness :
  loop batch_net (List.repeat (Raise end_of_input) 3) sample_state
  = (Ok AwaitingInput,
     wrote_all sample_state
       (List.concat
          (List.repeat
             ["Cities: ";
              ("Unexpected error: " +++ exn_str end_of_input) +++ Str.newline] 3))).
Proof.
  apply (end_of_input_does_not_end_loop batch_net end_of_input 3 sample_state);
    reflexivity.
Defined.

Lemma failure_abandons_rest_of_line_witness :
  fst (turn sample_net (Ok "Paris, London") sample_state) = Ok true
  /\ requests (snd (turn sample_net (Ok "Paris, London") sample_state))
     = [current_of "Paris"].
Proof.
  destruct (failure_abandons_rest_of_line sample_net "Paris, London" "Paris"
              ["London"] sample_state) as (H1 & H2 & _).
  - reflexivity.
  - reflexivity.
  - discriminate.
  - simpl. unfold error_status. simpl. lia.
  - split; assumption.
Defined.

Lemma error_report_shows_api_key_witness :
  Str.contains "appid=KEY"
    (captured (output_of (turn sample_net (Ok "Paris")) sample_state)).
Proof.
  apply (error_report_shows_api_key sample_net "Paris" "Paris" [] sample_state
           (server_error_response (current_of "Paris"))).
  - reflexivity.
  - reflexivity.
  - discriminate.
  - reflexivity.
  - unfold error_status. simpl. lia.
  - simpl. lia.
  - exists "http://api.openweathermap.org/data/2.5/weather?q=Paris&", "".
    reflexivity.
Defined.

Lemma blank_line_is_skipped_witness :
  turn batch_net (Ok " , ,, ") sample_state
  = (Ok true, wrote sample_state "Cities: ").
Proof.
  apply (blank_line_is_skipped batch_net " , ,, " sample_state).
  intros c Hc. simpl in Hc.
  repeat (destruct Hc as [Hc | Hc];
          [ subst c; first [ left; reflexivity | right; reflexivity ] | ]).
  contradiction.
Defined.

Lemma typed_names_are_processed_witness :
  cities_of "London, Paris" = ["London"; "Paris"]
  /\ turn_body batch_net (Ok "London, Paris") sample_state
     = (for_cities batch_net ["London"; "Paris"] ;; ret true)
         (wrote sample_state "Cities: ").
Proof.
  apply (typed_names_are_processed batch_net ["London"; "Paris"] sample_state).
  - discriminate.
  - repeat constructor; try discriminate; simpl; intuition discriminate.
  - reflexivity.
Defined.

Lemma process_city_report_witness :
  process_city sample_net "London" sample_state
  = (Ok tt,
     mk_state sample_service [london_record; london_record; london_record]
       (city_report "London" london_record [london_record; london_record])
       [current_of "London"; forecast_of "London"]).
Proof.
  apply (process_city_report sample_net "London" sample_state
           (ok_response (current_of "London") london_current)
           (ok_response (forecast_of "London") london_forecast)
           london_current london_forecast london_record london_entries
           [london_record; london_record]).
  - reflexivity.
  - unfold error_status. simpl. lia.
  - reflexivity.
  - vm_compute. reflexivity.
  - reflexivity.
  - unfold error_status. simpl. lia.
  - reflexivity.
  - reflexivity.
  - vm_compute. reflexivity.
Defined.

Lemma http_error_without_response_witness :
  exists m,
    fetch_current_weather http_error_net "London" sample_state
    = (Raise (mk_exn UnboundLocalError m),
       logged sample_state (current_of "London")).
Proof.
  exact (proj1 (http_error_without_response http_error_net "London" sample_state
                  (mk_exn HTTPError "error") eq_refl) eq_refl).
Defined.

Lemma interrupt_during_request_ends_loop_witness :
  turn interrupted_net (Ok "London, Paris") sample_state
  = (Ok false,
     wrote_all (logged sample_state (current_of "London"))
       ["Cities: ";
        (Str.newline +++ "Fetching weather for " +++ "London" +++ "...")
        +++ Str.newline;
        (Str.newline +++ "Exiting...") +++ Str.newline]).
Proof.
  apply (interrupt_during_request_ends_loop interrupted_net "London, Paris"
           "London" ["Paris"] sample_state (mk_exn KeyboardInterrupt ""));
    try reflexivity.
  discriminate.
Defined.
